(** * PyLog: the snapshot-diff engine of [ProcessMonitor]

    A shallow embedding of [src/main.py] (process watcher only) and
    [src/scr/main.py] (process and connection watchers), followed by the
    properties of the poll cycle.

    Python objects are embedded as follows.
    - [self.pid_info] and [self.conn_info] are dicts: [gmap]s.
    - [set(...)] values are [gset]s; the order in which a [for] loop visits a
      set is left to the runtime, see [SetIter].
    - A [str] is held as the bytes of its UTF-8 encoding; [code_points]
      gives its characters.
    - Calls that leave the program ([psutil], [print], [time.sleep],
      [logging.basicConfig]) get their outcome from a [world]; an outcome is
      a value, a raised [Exception], or a [KeyboardInterrupt].
    - Methods are computations in the monad [M]: they thread the monitor
      object, may raise, and append to the list of [effect]s (log records
      and lines printed on standard output). *)

From stdpp Require Import gmap strings list fin_maps pretty.

Set Warnings "-clear-no-such-hyp".

(** ** Exceptions and outcomes of calls *)

(** Instances of Python's class [Exception] that the code tells apart:
    [psutil.NoSuchProcess] has handlers of its own, every other instance is
    only caught by [except Exception]. The string is [str(e)]. *)
Inductive Exception : Type :=
| NoSuchProcess (text : string)
| OtherError (text : string).

Definition str_exn (e : Exception) : string :=
  match e with
  | NoSuchProcess text => text
  | OtherError text => text
  end.

(** [KeyboardInterrupt] derives from [BaseException], not from [Exception]:
    no [except Exception] clause catches it, only the clause in [start]. *)
Inductive outcome (A : Type) : Type :=
| Ret (a : A)
| Raise (e : Exception)
| KeyboardInterrupt.
Arguments Ret {A} a.
Arguments Raise {A} e.
Arguments KeyboardInterrupt {A}.

(** ** Text *)

(** A byte that continues a character in UTF-8: [10xxxxxx]. *)
Definition continuation (a : Ascii.ascii) : bool :=
  match a with
  | Ascii.Ascii _ _ _ _ _ _ b6 b7 => b7 && negb b6
  end.

(** The string goes on in the middle of a character. *)
Definition continues (s : string) : bool :=
  match s with
  | String b _ => continuation b
  | EmptyString => false
  end.

(** The characters of a [str]: iterating over it, or unpacking it, yields
    one string per code point. *)
Fixpoint code_points (s : string) : list string :=
  match s with
  | EmptyString => []
  | String a s' =>
      match code_points s' with
      | c :: cs =>
          if continues s' then String a c :: cs else String a "" :: c :: cs
      | [] => [String a ""]
      end
  end.

(** ** What psutil returns *)

Module psutil.

(** An address of a connection: the empty tuple, an [addr(ip, port)]
    pair, or the path of a UNIX socket. *)
Inductive addr : Type :=
| NoAddr
| IpPort (ip : string) (port : Z)
| Path (p : string).

(** One entry of [psutil.net_connections()]. The named tuple always has
    the six attributes, so the [hasattr] and [getattr] defaults of the
    source are never taken. *)
Record sconn : Type := {
  family : Z;
  type : Z;
  laddr : addr;
  raddr : addr;
  status : string;
  pid : option Z
}.

End psutil.

(** The environment of one poll cycle (or of the construction of the
    monitor): what each external call answers during it.
    [Process_name pid] is [psutil.Process(pid).name()];
    [Process_create_time pid] is the creation time of [pid] already
    formatted by [strftime].
    The first two fields are read by the constructor only:
    [float_interval] is [float(interval)] on the argument it was given,
    which raises when the argument is not a number; [basicConfig] is
    [logging.basicConfig(filename=self.log_file, ...)], which opens the log
    file and raises when it cannot. *)
Record world : Type := {
  float_interval : outcome unit;
  basicConfig : outcome unit;
  pids : outcome (list Z);
  Process_name : Z → outcome string;
  Process_create_time : Z → outcome string;
  net_connections : outcome (list psutil.sconn);
  print : string → outcome unit;
  sleep : outcome unit
}.

(** ** The monitor object *)

(** The key computed by [_conn_key]:
    (family, type, local address, remote address, status, pid). *)
Abbreviation conn_key :=
  (Z * Z * option string * option string * string * option Z)%type.

(** The dict stored in [conn_info] for a key. *)
Record info : Type := {
  status : string;
  pid : string;
  laddr : option string;
  raddr : option string
}.

(** The attributes of [ProcessMonitor] that the poll cycle reads or
    writes. [interval] and [log_file] are configuration only. *)
Record ProcessMonitor : Type := {
  running : bool;
  pid_info : gmap Z string;
  monitor_network : bool;
  conn_info : gmap conn_key info
}.

(** ** Log records and printed lines *)

(** The level of a call to [logging]. [logging.basicConfig] sets the level
    of the log file to [INFO]: a [DEBUG] record is handed to [logging] but
    is not written. *)
Inductive level : Type := DEBUG | INFO | ERROR.

(** A message handed to [logging] or [print]. The four lifecycle messages
    keep their fields; [key] in the connection messages is the argument of
    [_log_conn_start] / [_log_conn_end] and is not part of the text. *)
Inductive msg : Type :=
| ProcessStarted (pid : Z) (name created : string)
| ProcessEnded (pid : Z) (name : option string)
| ConnectionStarted (key : conn_key) (l r status pid : option string)
| ConnectionEnded (key : conn_key) (l r status pid : option string)
| Text (s : string).

(** [f"{x}"] for a value that may be [None]. *)
Definition str_opt (o : option string) : string := default "None" o.

Definition render (m : msg) : string :=
  match m with
  | ProcessStarted pid name created =>
      "Process Started - PID: " +:+ pretty pid +:+ ", Name: " +:+ name
        +:+ ", Created: " +:+ created
  | ProcessEnded pid (Some name) =>
      "Process Ended - PID: " +:+ pretty pid +:+ ", Name: " +:+ name
  | ProcessEnded pid None =>
      "Process Ended - PID: " +:+ pretty pid
  | ConnectionStarted _ l r status pid =>
      "Connection Started - Local: " +:+ str_opt l +:+ ", Remote: " +:+ str_opt r
        +:+ ", Status: " +:+ str_opt status +:+ ", PID: " +:+ str_opt pid
  | ConnectionEnded _ l r status pid =>
      "Connection Ended - Local: " +:+ str_opt l +:+ ", Remote: " +:+ str_opt r
        +:+ ", Status: " +:+ str_opt status +:+ ", PID: " +:+ str_opt pid
  | Text s => s
  end.

Inductive effect : Type :=
| Logged (lv : level) (m : msg)
| Printed (m : msg).

(** ** The monad of methods *)

Definition M (A : Type) : Type :=
  ProcessMonitor → outcome A * ProcessMonitor * list effect.

Definition M_ret {A} (a : A) : M A := λ self, (Ret a, self, []).

Definition M_bind {A B} (f : A → M B) (m : M A) : M B := λ self,
  match m self with
  | (Ret a, self', t) => let '(o, self'', t') := f a self' in (o, self'', t ++ t')
  | (Raise e, self', t) => (Raise e, self', t)
  | (KeyboardInterrupt, self', t) => (KeyboardInterrupt, self', t)
  end.

#[global] Instance M_mret : MRet M := @M_ret.
#[global] Instance M_mbind : MBind M := @M_bind.

(** [try: body except ...: handler]. [handler e] is [None] when no clause
    matches [e]. Writes made by [body] before it raised are kept. *)
Definition try_except {A} (body : M A) (handler : Exception → option (M A)) : M A :=
  λ self,
  match body self with
  | (Raise e, self', t) =>
      match handler e with
      | Some h => let '(o, self'', t') := h self' in (o, self'', t ++ t')
      | None => (Raise e, self', t)
      end
  | r => r
  end.

(** [try: body except KeyboardInterrupt: handler]. *)
Definition try_except_KeyboardInterrupt {A} (body handler : M A) : M A :=
  λ self,
  match body self with
  | (KeyboardInterrupt, self', t) =>
      let '(o, self'', t') := handler self' in (o, self'', t ++ t')
  | r => r
  end.

(** The clause [except Exception as e]. *)
Definition except_Exception {A} (h : Exception → M A) : Exception → option (M A) :=
  λ e, Some (h e).

(** The clause [except psutil.NoSuchProcess] alone. *)
Definition except_NoSuchProcess {A} (h : M A) : Exception → option (M A) :=
  λ e, match e with NoSuchProcess _ => Some h | OtherError _ => None end.

Definition call {A} (o : outcome A) : M A := λ self, (o, self, []).

Definition get_self : M ProcessMonitor := λ self, (Ret self, self, []).

Definition logging (lv : level) (m : msg) : M unit :=
  λ self, (Ret tt, self, [Logged lv m]).

(** [print(msg)]: the line reaches standard output unless the call raises. *)
Definition do_print (w : world) (m : msg) : M unit := λ self,
  match print w (render m) with
  | Ret _ => (Ret tt, self, [Printed m])
  | Raise e => (Raise e, self, [])
  | KeyboardInterrupt => (KeyboardInterrupt, self, [])
  end.

Definition with_running (b : bool) (self : ProcessMonitor) : ProcessMonitor :=
  {| running := b; pid_info := pid_info self;
     monitor_network := monitor_network self; conn_info := conn_info self |}.

Definition with_pid_info (f : gmap Z string → gmap Z string)
    (self : ProcessMonitor) : ProcessMonitor :=
  {| running := running self; pid_info := f (pid_info self);
     monitor_network := monitor_network self; conn_info := conn_info self |}.

Definition with_conn_info (f : gmap conn_key info → gmap conn_key info)
    (self : ProcessMonitor) : ProcessMonitor :=
  {| running := running self; pid_info := pid_info self;
     monitor_network := monitor_network self; conn_info := f (conn_info self) |}.

Definition set_running (b : bool) : M unit :=
  λ self, (Ret tt, with_running b self, []).

Definition update_pid_info (f : gmap Z string → gmap Z string) : M unit :=
  λ self, (Ret tt, with_pid_info f self, []).

Definition update_conn_info (f : gmap conn_key info → gmap conn_key info) : M unit :=
  λ self, (Ret tt, with_conn_info f self, []).

(** [for x in l: body(x)] over a list. *)
Fixpoint for_each {A} (l : list A) (body : A → M unit) : M unit :=
  match l with
  | [] => mret tt
  | x :: l' => body x;; for_each l' body
  end.

(** The order in which the runtime iterates over a set: some enumeration
    of its elements, each visited once. *)
Class SetIter : Type := {
  set_iter : ∀ `{Countable K}, gset K → list K;
  set_iter_perm : ∀ `{Countable K} (s : gset K), set_iter s ≡ₚ elements s
}.

(** One iteration order, for running the model. *)
Definition elements_iter : SetIter :=
  {| set_iter := λ K _ _ s, elements s;
     set_iter_perm := λ K _ _ s, reflexivity (elements s) |}.

(** ** Methods shared by the two files

    [_log_start], [_log_end], the seeding of [pid_info] and the process part
    of [_poll_once] are the same text in [src/main.py] and in
    [src/scr/main.py]; [start] and [stop] differ only in the [_poll_once]
    they call. *)

(** [if name:] on the result of [dict.get]: [None] and the empty string
    are both false. *)
Definition truthy (name : option string) : option string :=
  match name with
  | Some "" => None
  | Some n => Some n
  | None => None
  end.

Definition _log_start (w : world) (pid : Z) : M unit :=
  try_except
    (name ← call (Process_name w pid);
     created ← call (Process_create_time w pid);
     let m := ProcessStarted pid name created in
     logging INFO m;;
     do_print w m;;
     update_pid_info (<[pid := name]>))
    (λ e, match e with
          | NoSuchProcess _ => Some (mret tt)
          | OtherError _ =>
              Some (logging ERROR
                      (Text ("Error logging start for PID " +:+ pretty pid +:+ ": "
                               +:+ str_exn e)))
          end).

Definition _log_end (w : world) (pid : Z) : M unit :=
  self ← get_self;
  let m := ProcessEnded pid (truthy (pid_info self !! pid)) in
  logging INFO m;;
  do_print w m;;
  update_pid_info (delete pid).

(** The seeding loop of [__init__]. An exception other than
    [NoSuchProcess] leaves the inner [try] and empties [pid_info]. *)
Definition seed_pids (w : world) : M unit :=
  try_except
    (l ← call (pids w);
     for_each l (λ pid,
       try_except
         (name ← call (Process_name w pid);
          update_pid_info (<[pid := name]>))
         (except_NoSuchProcess (mret tt))))
    (except_Exception (λ _, update_pid_info (λ _, ∅))).

(** [while self.running: self._poll_once(); time.sleep(self.interval)],
    observed for as many cycles as there are worlds in [ws]. *)
Fixpoint while_running (_poll_once : world → M unit) (ws : list world) : M unit :=
  match ws with
  | [] => mret tt
  | w :: ws' =>
      self ← get_self;
      if running self
      then _poll_once w;; call (sleep w);; while_running _poll_once ws'
      else mret tt
  end.

Definition stop (w : world) : M unit :=
  self ← get_self;
  if running self
  then set_running false;;
       do_print w (Text "Stopping ProcessMonitor...");;
       logging INFO (Text "ProcessMonitor stopped by user")
  else mret tt.

(** [start]: [w_start] answers the calls made before the loop, [ws] those
    of the successive cycles, [w_stop] those of the shutdown. *)
Definition start_with (_poll_once : world → M unit)
    (w_start : world) (ws : list world) (w_stop : world) : M unit :=
  set_running true;;
  logging INFO (Text "ProcessMonitor started");;
  do_print w_start (Text "ProcessMonitor started. Press Ctrl+C to stop.");;
  try_except_KeyboardInterrupt
    (while_running _poll_once ws)
    (logging INFO (Text "ProcessMonitor stopping due to KeyboardInterrupt");;
     stop w_stop).

(** ** src/main.py *)

Module main.
Section methods.
Context `{SetIter}.

(** The object has no [monitor_network] and no [conn_info] attribute:
    the flag is off and the dict is never touched. [float(interval)] and
    [logging.basicConfig] stand outside every [try]: an exception that
    they raise leaves the constructor. [logging.basicConfig] emits
    nothing. *)
Definition __init__ (w : world) : outcome unit * ProcessMonitor * list effect :=
  (call (float_interval w);;
   call (basicConfig w);;
   seed_pids w)
    {| running := false; pid_info := ∅; monitor_network := false; conn_info := ∅ |}.

Definition _poll_once (w : world) : M unit :=
  current ← try_except
               (l ← call (pids w); mret (list_to_set l : gset Z))
               (except_Exception (λ e,
                  logging ERROR (Text ("Failed to list PIDs: " +:+ str_exn e));;
                  mret ∅));
  self ← get_self;
  let previous : gset Z := dom (pid_info self) in
  let created := current ∖ previous in
  for_each (set_iter created) (_log_start w);;
  let ended := previous ∖ current in
  for_each (set_iter ended) (_log_end w).

Definition start := start_with _poll_once.

End methods.
End main.

(** ** src/scr/main.py *)

Module scr.
Section methods.
Context `{SetIter}.

(** [not addr] holds for the empty tuple and for the empty string. The
    unpacking [ip, port = addr] succeeds on a pair, and on a string of
    exactly two characters; on any other string it raises, and [str(addr)]
    is returned. *)
Definition _addr_str (a : psutil.addr) : option string :=
  match a with
  | psutil.NoAddr => None
  | psutil.IpPort ip port => Some (ip +:+ ":" +:+ pretty port)
  | psutil.Path p =>
      match code_points p with
      | [] => None
      | [ip; port] => Some (ip +:+ ":" +:+ port)
      | _ => Some p
      end
  end.

Definition _conn_key (conn : psutil.sconn) : conn_key :=
  (psutil.family conn, psutil.type conn,
   _addr_str (psutil.laddr conn), _addr_str (psutil.raddr conn),
   psutil.status conn, psutil.pid conn).

(** [str(pid)] for a pid that may be [None]. *)
Definition str_pid (p : option Z) : string :=
  match p with
  | Some n => pretty n
  | None => "None"
  end.

(** The dict literal stored for a connection, in [_seed_connections] and
    in [_poll_connections]. *)
Definition conn_record (c : psutil.sconn) : info :=
  {| status := psutil.status c;
     pid := str_pid (psutil.pid c);
     laddr := _addr_str (psutil.laddr c);
     raddr := _addr_str (psutil.raddr c) |}.

(** Nothing in the body of the loop calls outside the program, so its
    [except Exception: continue] clause is never reached. *)
Definition _seed_connections (w : world) : M unit :=
  conns ← try_except (call (net_connections w)) (except_Exception (λ _, mret []));
  for_each conns (λ c,
    let k := _conn_key c in
    update_conn_info (<[k := conn_record c]>)).

Definition __init__ (w : world) : outcome unit * ProcessMonitor * list effect :=
  (call (float_interval w);;
   call (basicConfig w);;
   seed_pids w;;
   self ← get_self;
   if monitor_network self
   then try_except (_seed_connections w)
          (except_Exception (λ _, update_conn_info (λ _, ∅)))
   else mret tt)
    {| running := false; pid_info := ∅; monitor_network := true; conn_info := ∅ |}.

Definition _log_conn_start (w : world) (key : conn_key) : M unit :=
  self ← get_self;
  let i := conn_info self !! key in
  let m := ConnectionStarted key (i ≫= laddr) (i ≫= raddr) (status <$> i) (pid <$> i) in
  logging INFO m;;
  do_print w m.

Definition _log_conn_end (w : world) (key : conn_key) : M unit :=
  self ← get_self;
  let i := conn_info self !! key in
  let m := ConnectionEnded key (i ≫= laddr) (i ≫= raddr) (status <$> i) (pid <$> i) in
  logging INFO m;;
  do_print w m;;
  update_conn_info (delete key).

(** The first loop of [_poll_connections]: it collects [current_keys] and
    stores a record for every key that [conn_info] does not hold yet. As in
    [_seed_connections], its [except] clause is never reached. *)
Fixpoint collect_keys (conns : list psutil.sconn) (current_keys : gset conn_key)
    : M (gset conn_key) :=
  match conns with
  | [] => mret current_keys
  | c :: conns' =>
      let k := _conn_key c in
      self ← get_self;
      (if decide (conn_info self !! k = None)
       then update_conn_info (<[k := conn_record c]>)
       else mret tt);;
      collect_keys conns' ({[k]} ∪ current_keys)
  end.

Definition _poll_connections (w : world) : M unit :=
  conns ← try_except (call (net_connections w))
            (except_Exception (λ e,
               logging DEBUG
                 (Text ("Failed to list network connections: " +:+ str_exn e));;
               mret []));
  current_keys ← collect_keys conns ∅;
  self ← get_self;
  let previous_keys : gset conn_key := dom (conn_info self) in
  let created := current_keys ∖ previous_keys in
  let ended := previous_keys ∖ current_keys in
  for_each (set_iter created) (_log_conn_start w);;
  for_each (set_iter ended) (_log_conn_end w).

(** The first part of the method (enumerate the pids, log the starts,
    log the ends) is the whole of [_poll_once] in [src/main.py], word for
    word; the network part follows it. *)
Definition _poll_once (w : world) : M unit :=
  main._poll_once w;;
  self ← get_self;
  if monitor_network self
  then try_except (_poll_connections w) (except_Exception (λ _, mret tt))
  else mret tt.

Definition start := start_with _poll_once.

End methods.
End scr.

(** ** Vocabulary of the properties *)

(** A world in which the sink accepts every line and no call is
    interrupted from the keyboard. Calls may still raise [Exception]s. *)
Record calm (w : world) : Prop := {
  calm_print : ∀ line, print w line = Ret tt;
  calm_pids : pids w ≠ KeyboardInterrupt;
  calm_name : ∀ pid, Process_name w pid ≠ KeyboardInterrupt;
  calm_create_time : ∀ pid, Process_create_time w pid ≠ KeyboardInterrupt;
  calm_net_connections : net_connections w ≠ KeyboardInterrupt
}.

Fixpoint count {A} (p : A → bool) (l : list A) : nat :=
  match l with
  | [] => 0
  | x :: l' => (if p x then 1 else 0) + count p l'
  end.

(** Lifecycle events are the records written to the log at level [INFO]
    ([print] mirrors them on standard output). *)
Definition process_started (x : Z) (e : effect) : bool :=
  match e with
  | Logged INFO (ProcessStarted pid _ _) => bool_decide (pid = x)
  | _ => false
  end.

Definition process_ended (x : Z) (e : effect) : bool :=
  match e with
  | Logged INFO (ProcessEnded pid _) => bool_decide (pid = x)
  | _ => false
  end.

Definition conn_started (k : conn_key) (e : effect) : bool :=
  match e with
  | Logged INFO (ConnectionStarted key _ _ _ _) => bool_decide (key = k)
  | _ => false
  end.

Definition conn_ended (k : conn_key) (e : effect) : bool :=
  match e with
  | Logged INFO (ConnectionEnded key _ _ _ _) => bool_decide (key = k)
  | _ => false
  end.

(** An effect that carries a lifecycle message, logged or printed. *)
Definition lifecycle (e : effect) : bool :=
  match e with
  | Logged _ (Text _) | Printed (Text _) => false
  | _ => true
  end.

(** An effect that carries a process message. *)
Definition about_process (e : effect) : bool :=
  match e with
  | Logged _ (ProcessStarted _ _ _) | Logged _ (ProcessEnded _ _)
  | Printed (ProcessStarted _ _ _) | Printed (ProcessEnded _ _) => true
  | _ => false
  end.

(** A diagnostic of level [ERROR]. *)
Definition error_record (e : effect) : bool :=
  match e with
  | Logged ERROR _ => true
  | _ => false
  end.

(** A diagnostic of level [DEBUG]. *)
Definition debug_record (e : effect) : bool :=
  match e with
  | Logged DEBUG _ => true
  | _ => false
  end.

(** The detail fetch of [_log_start]: name, then creation time. *)
Definition fetch (w : world) (pid : Z) : outcome (string * string) :=
  match Process_name w pid with
  | Ret name =>
      match Process_create_time w pid with
      | Ret created => Ret (name, created)
      | Raise e => Raise e
      | KeyboardInterrupt => KeyboardInterrupt
      end
  | Raise e => Raise e
  | KeyboardInterrupt => KeyboardInterrupt
  end.

(** What [_log_start] appends to the trace and does to [pid_info] in a
    calm world, and what [_log_end] appends. *)
Definition start_effects (w : world) (pid : Z) : list effect :=
  match fetch w pid with
  | Ret (name, created) =>
      [Logged INFO (ProcessStarted pid name created);
       Printed (ProcessStarted pid name created)]
  | Raise (OtherError text) =>
      [Logged ERROR (Text ("Error logging start for PID " +:+ pretty pid +:+ ": " +:+ text))]
  | _ => []
  end.

Definition start_update (w : world) (pid : Z) (m : gmap Z string) : gmap Z string :=
  match fetch w pid with
  | Ret (name, _) => <[pid := name]> m
  | _ => m
  end.

Definition end_effects (m : gmap Z string) (pid : Z) : list effect :=
  [Logged INFO (ProcessEnded pid (truthy (m !! pid)));
   Printed (ProcessEnded pid (truthy (m !! pid)))].

(** The snapshot a poll works with: what the enumeration returned, or
    nothing when it raised. *)
Definition current_pids (w : world) : gset Z :=
  match pids w with
  | Ret l => list_to_set l
  | _ => ∅
  end.

Definition current_conns (w : world) : list psutil.sconn :=
  match net_connections w with
  | Ret l => l
  | _ => []
  end.

Definition current_keys (w : world) : gset conn_key :=
  list_to_set (scr._conn_key <$> current_conns w).

Definition pids_diagnostic (w : world) : list effect :=
  match pids w with
  | Raise e => [Logged ERROR (Text ("Failed to list PIDs: " +:+ str_exn e))]
  | _ => []
  end.

Definition conns_diagnostic (w : world) : list effect :=
  match net_connections w with
  | Raise e =>
      [Logged DEBUG (Text ("Failed to list network connections: " +:+ str_exn e))]
  | _ => []
  end.

Definition conn_end_effects (m : gmap conn_key info) (key : conn_key) : list effect :=
  let i := m !! key in
  [Logged INFO
     (ConnectionEnded key (i ≫= laddr) (i ≫= raddr) (status <$> i) (pid <$> i));
   Printed
     (ConnectionEnded key (i ≫= laddr) (i ≫= raddr) (status <$> i) (pid <$> i))].

(** The first loop of [_poll_connections] on the dict alone. *)
Definition store_new (m : gmap conn_key info) (c : psutil.sconn)
    : gmap conn_key info :=
  if decide (m !! scr._conn_key c = None)
  then <[scr._conn_key c := scr.conn_record c]> m
  else m.

(** Two states with the same process watcher: [pid_info] and the flags. *)
Definition same_process_state (s s' : ProcessMonitor) : Prop :=
  pid_info s' = pid_info s ∧ running s' = running s
  ∧ monitor_network s' = monitor_network s.

(** Two states with the same flags. *)
Definition same_flags (s s' : ProcessMonitor) : Prop :=
  running s' = running s ∧ monitor_network s' = monitor_network s.

(** [respects R Q m]: whatever the outcome of [m], the state it leaves is
    related by [R] to the state it started from and every effect it emitted
    satisfies [Q]. *)
Definition respects {A} (R : relation ProcessMonitor) (Q : effect → Prop)
    (m : M A) : Prop :=
  ∀ s, R s (m s).1.2 ∧ Forall Q (m s).2.

(** A computation that emits nothing. *)
Definition silent {A} (m : M A) : Prop :=
  respects (λ _ _, True) (λ _, False) m.

(** A computation that leaves the process watcher alone and emits no
    process message. *)
Definition process_quiet {A} (m : M A) : Prop :=
  respects same_process_state (λ e, about_process e = false) m.

(** Prefixing the trace of a later computation with an earlier trace. *)
Definition after {A} (t : list effect)
    (r : outcome A * ProcessMonitor * list effect)
    : outcome A * ProcessMonitor * list effect :=
  (r.1.1, r.1.2, t ++ r.2).

(** The process watcher's dict after a poll, and the trace of the poll,
    in a calm world. *)
Definition pid_info_after `{SetIter} (w : world) (m : gmap Z string) : gmap Z string :=
  foldl (λ m' x, delete x m')
    (foldl (λ m' x, start_update w x m') m (set_iter (current_pids w ∖ dom m)))
    (set_iter (dom m ∖ current_pids w)).

Definition process_trace `{SetIter} (w : world) (m : gmap Z string) : list effect :=
  pids_diagnostic w
  ++ (set_iter (current_pids w ∖ dom m) ≫= start_effects w)
  ++ (set_iter (dom m ∖ current_pids w) ≫= end_effects m).

(** The same for the connection watcher. *)
Definition conn_info_after `{SetIter} (w : world) (m : gmap conn_key info)
    : gmap conn_key info :=
  foldl (λ m' k, delete k m')
    (foldl store_new m (current_conns w))
    (set_iter (dom m ∖ current_keys w)).

Definition conn_trace `{SetIter} (w : world) (m : gmap conn_key info) : list effect :=
  conns_diagnostic w
  ++ (set_iter (dom m ∖ current_keys w) ≫= conn_end_effects m).
(** The three components of a run. *)
Definition outcome_of {A} (r : outcome A * ProcessMonitor * list effect)
    : outcome A := r.1.1.

Definition state_of {A} (r : outcome A * ProcessMonitor * list effect)
    : ProcessMonitor := r.1.2.

Definition trace_of {A} (r : outcome A * ProcessMonitor * list effect)
    : list effect := r.2.

(** [_poll_once] of either file; both run the process watcher. *)
Definition process_watcher `{SetIter} (_poll_once : world → M unit) : Prop :=
  _poll_once = main._poll_once ∨ _poll_once = scr._poll_once.

(** The message of an effect. *)
Definition message (e : effect) : msg :=
  match e with
  | Logged _ m => m
  | Printed m => m
  end.

(** An effect that carries a lifecycle message about process [x]. *)
Definition about_pid (x : Z) (e : effect) : bool :=
  match message e with
  | ProcessStarted pid _ _ | ProcessEnded pid _ => bool_decide (pid = x)
  | _ => false
  end.

(** The same world, except that an enumeration returns nothing. *)
Definition no_pids (w : world) : world :=
  {| float_interval := float_interval w;
     basicConfig := basicConfig w;
     pids := Ret [];
     Process_name := Process_name w;
     Process_create_time := Process_create_time w;
     net_connections := net_connections w;
     print := print w;
     sleep := sleep w |}.

Definition no_connections (w : world) : world :=
  {| float_interval := float_interval w;
     basicConfig := basicConfig w;
     pids := pids w;
     Process_name := Process_name w;
     Process_create_time := Process_create_time w;
     net_connections := Ret [];
     print := print w;
     sleep := sleep w |}.

(** ** Sample inputs *)

Definition conn_established : psutil.sconn :=
  {| psutil.family := 2; psutil.type := 1;
     psutil.laddr := psutil.IpPort "10.0.0.1" 5000;
     psutil.raddr := psutil.IpPort "10.0.0.2" 80;
     psutil.status := "ESTABLISHED"; psutil.pid := Some 42%Z |}.

Definition conn_close_wait : psutil.sconn :=
  {| psutil.family := 2; psutil.type := 1;
     psutil.laddr := psutil.IpPort "10.0.0.1" 5000;
     psutil.raddr := psutil.IpPort "10.0.0.2" 80;
     psutil.status := "CLOSE_WAIT"; psutil.pid := Some 42%Z |}.

(** pid 100 "alpha" and the established connection are live. *)
Definition world_alpha : world :=
  {| float_interval := Ret tt;
     basicConfig := Ret tt;
     pids := Ret [100%Z];
     Process_name := λ _, Ret "alpha";
     Process_create_time := λ _, Ret "2024-01-01 00:00:00";
     net_connections := Ret [conn_established];
     print := λ _, Ret tt;
     sleep := Ret tt |}.

(** pid 200 "beta" is live and the connection is in CLOSE_WAIT. *)
Definition world_beta : world :=
  {| float_interval := Ret tt;
     basicConfig := Ret tt;
     pids := Ret [200%Z];
     Process_name := λ _, Ret "beta";
     Process_create_time := λ _, Ret "2024-01-01 00:00:01";
     net_connections := Ret [conn_close_wait];
     print := λ _, Ret tt;
     sleep := Ret tt |}.

(** pid 7 is listed but is gone when its details are read. *)
Definition world_vanished : world :=
  {| float_interval := Ret tt;
     basicConfig := Ret tt;
     pids := Ret [7%Z];
     Process_name := λ _, Raise (NoSuchProcess "process no longer exists (pid=7)");
     Process_create_time := λ _, Ret "2024-01-01 00:00:02";
     net_connections := Ret [];
     print := λ _, Ret tt;
     sleep := Ret tt |}.

(** Both enumerations are refused. *)
Definition world_denied : world :=
  {| float_interval := Ret tt;
     basicConfig := Ret tt;
     pids := Raise (OtherError "access denied");
     Process_name := λ _, Ret "alpha";
     Process_create_time := λ _, Ret "2024-01-01 00:00:03";
     net_connections := Raise (OtherError "access denied");
     print := λ _, Ret tt;
     sleep := Ret tt |}.

(** Nothing is live and standard output is closed. *)
Definition world_broken_pipe : world :=
  {| float_interval := Ret tt;
     basicConfig := Ret tt;
     pids := Ret [100%Z];
     Process_name := λ _, Ret "alpha";
     Process_create_time := λ _, Ret "2024-01-01 00:00:04";
     net_connections := Ret [];
     print := λ _, Raise (OtherError "[Errno 32] Broken pipe");
     sleep := Ret tt |}.

Definition monitor_empty : ProcessMonitor :=
  {| running := true; pid_info := ∅; monitor_network := true; conn_info := ∅ |}.

(** The monitor after seeding in [world_alpha], once started. *)
Definition monitor_alpha : ProcessMonitor :=
  {| running := true;
     pid_info := {[100%Z := "alpha"]};
     monitor_network := true;
     conn_info := {[scr._conn_key conn_established := scr.conn_record conn_established]} |}.

(** pid 100 is listed again but is gone when its details are read. *)
Definition world_alpha_vanished : world :=
  {| float_interval := Ret tt;
     basicConfig := Ret tt;
     pids := Ret [100%Z];
     Process_name := λ _, Raise (NoSuchProcess "process no longer exists (pid=100)");
     Process_create_time := λ _, Ret "2024-01-01 00:00:05";
     net_connections := Ret [conn_established];
     print := λ _, Ret tt;
     sleep := Ret tt |}.

(** Ctrl+C arrives while the connection table is being read. *)
Definition world_interrupted : world :=
  {| float_interval := Ret tt;
     basicConfig := Ret tt;
     pids := Ret [100%Z];
     Process_name := λ _, Ret "alpha";
     Process_create_time := λ _, Ret "2024-01-01 00:00:06";
     net_connections := KeyboardInterrupt;
     print := λ _, Ret tt;
     sleep := Ret tt |}.

(** ** Vocabulary of the further properties *)

(** The records written to the log at level [INFO], and the lines printed
    on standard output, in order. *)
Definition info_log (t : list effect) : list msg :=
  omap (λ e, match e with Logged INFO m => Some m | _ => None end) t.

Definition stdout (t : list effect) : list msg :=
  omap (λ e, match e with Printed m => Some m | _ => None end) t.

(** An effect that carries a connection message. *)
Definition about_connection (e : effect) : bool :=
  match message e with
  | ConnectionStarted _ _ _ _ _ | ConnectionEnded _ _ _ _ _ => true
  | _ => false
  end.

(** An effect that carries a lifecycle message about connection [k]. *)
Definition about_key (k : conn_key) (e : effect) : bool :=
  match message e with
  | ConnectionStarted key _ _ _ _ | ConnectionEnded key _ _ _ _ =>
      bool_decide (key = k)
  | _ => false
  end.

(** An effect that carries a "Connection Started" message. *)
Definition connection_started (e : effect) : bool :=
  match message e with
  | ConnectionStarted _ _ _ _ _ => true
  | _ => false
  end.

(** The details that the four last fields of a key stand for. *)
Definition key_record (k : conn_key) : info :=
  let '(_, _, l, r, st, p) := k in
  {| status := st; pid := scr.str_pid p; laddr := l; raddr := r |}.

(** Every entry of [conn_info] holds the details of its own key. *)
Definition well_keyed (m : gmap conn_key info) : Prop :=
  ∀ k i, m !! k = Some i → i = key_record k.

(** The constructor could convert its [interval] and open its log
    file. *)
Definition configured (w : world) : Prop :=
  float_interval w = Ret tt ∧ basicConfig w = Ret tt.

(** A computation that raises no [Exception], whatever the state. *)
Definition never_raises {A} (m : M A) : Prop :=
  ∀ s e, (m s).1.1 ≠ Raise e.

(** [psutil.Process(pid).name()] raises an [Exception] other than
    [NoSuchProcess]. *)
Definition name_refused (w : world) (pid : Z) : bool :=
  match Process_name w pid with
  | Raise (OtherError _) => true
  | _ => false
  end.

(** The name that seeding stores for a pid. *)
Definition seed_update (w : world) (pid : Z) (m : gmap Z string) : gmap Z string :=
  match Process_name w pid with
  | Ret name => <[pid := name]> m
  | _ => m
  end.

(** [pid_info] after the seeding loop of [__init__] run on [m], in a calm
    world. *)
Definition seeded_pid_info (w : world) (m : gmap Z string) : gmap Z string :=
  match pids w with
  | Ret l =>
      if existsb (name_refused w) l then ∅
      else foldl (λ m' x, seed_update w x m') m l
  | _ => ∅
  end.

(** [conn_info] after [_seed_connections] run on [m], in a calm world. *)
Definition seeded_conn_info (w : world) (m : gmap conn_key info)
    : gmap conn_key info :=
  foldl (λ m' c, <[scr._conn_key c := scr.conn_record c]> m') m (current_conns w).

(** Two states with the same connection watcher and the same flags. *)
Definition same_connection_state (s s' : ProcessMonitor) : Prop :=
  conn_info s' = conn_info s ∧ running s' = running s
  ∧ monitor_network s' = monitor_network s.

(** [conn_info] stays well keyed. *)
Definition keeps_well_keyed (s s' : ProcessMonitor) : Prop :=
  well_keyed (conn_info s) → well_keyed (conn_info s').

(** A world in which standard output is closed: every [print] raises the
    same error, and no call is interrupted from the keyboard. *)
Record stdout_closed (w : world) (text : string) : Prop := {
  closed_print : ∀ line, print w line = Raise (OtherError text);
  closed_pids : pids w ≠ KeyboardInterrupt;
  closed_name : ∀ pid, Process_name w pid ≠ KeyboardInterrupt;
  closed_create_time : ∀ pid, Process_create_time w pid ≠ KeyboardInterrupt
}.

(** What [_log_start] appends to the trace when standard output is
    closed: the record is logged before [print] raises, and the exception
    is reported by the [except Exception] clause. *)
Definition closed_start_effects (w : world) (text : string) (pid : Z)
    : list effect :=
  match fetch w pid with
  | Ret (name, created) =>
      [Logged INFO (ProcessStarted pid name created);
       Logged ERROR
         (Text ("Error logging start for PID " +:+ pretty pid +:+ ": " +:+ text))]
  | Raise (OtherError text') =>
      [Logged ERROR
         (Text ("Error logging start for PID " +:+ pretty pid +:+ ": " +:+ text'))]
  | _ => []
  end.

(** What the loop over [ended] appends then: the record of its first
    pid, after which [print] raises out of the loop. *)
Definition closed_end_effects (m : gmap Z string) (l : list Z) : list effect :=
  match l with
  | [] => []
  | pid :: _ => [Logged INFO (ProcessEnded pid (truthy (m !! pid)))]
  end.

(** ** The script

    The block under [if __name__ == '__main__'] of both files. *)

(** How the script ends: [start] returned (within the cycles observed),
    [sys.exit(code)] was called, an [Exception] was not caught, or a
    [KeyboardInterrupt] was not caught. *)
Inductive exit : Type :=
| Returned
| SystemExit (code : Z)
| Traceback (e : Exception)
| Interrupted.

(** [monitor = ProcessMonitor(interval=1.0)] is evaluated outside the
    [try]; [w_exit] answers the [print] of the [except] clause. *)
Definition __main__ (init : outcome unit * ProcessMonitor * list effect)
    (start : M unit) (w_exit : world) : exit * ProcessMonitor * list effect :=
  match init with
  | (Ret _, monitor, t0) =>
      match start monitor with
      | (Ret _, self, t) => (Returned, self, t0 ++ t)
      | (Raise e, self, t) =>
          let record :=
            Logged ERROR (Text ("Unhandled error in monitor: " +:+ str_exn e)) in
          let line := Text ("Unhandled error: " +:+ str_exn e) in
          match print w_exit (render line) with
          | Ret _ => (SystemExit 1, self, t0 ++ t ++ [record; Printed line])
          | Raise e' => (Traceback e', self, t0 ++ t ++ [record])
          | KeyboardInterrupt => (Interrupted, self, t0 ++ t ++ [record])
          end
      | (KeyboardInterrupt, self, t) => (Interrupted, self, t0 ++ t)
      end
  | (Raise e, monitor, t0) => (Traceback e, monitor, t0)
  | (KeyboardInterrupt, monitor, t0) => (Interrupted, monitor, t0)
  end.

(** ** Further sample inputs *)

(** The log file cannot be opened. *)
Definition world_no_log_file : world :=
  {| float_interval := Ret tt;
     basicConfig := Raise (OtherError "[Errno 13] Permission denied: 'process_log.txt'");
     pids := Ret [100%Z];
     Process_name := λ _, Ret "alpha";
     Process_create_time := λ _, Ret "2024-01-01 00:00:08";
     net_connections := Ret [conn_established];
     print := λ _, Ret tt;
     sleep := Ret tt |}.

(** pids 100 and 200 are listed; the name of pid 200 may not be read. *)
Definition world_refused : world :=
  {| float_interval := Ret tt;
     basicConfig := Ret tt;
     pids := Ret [100%Z; 200%Z];
     Process_name := λ pid,
       if decide (pid = 200%Z) then Raise (OtherError "access denied")
       else Ret "alpha";
     Process_create_time := λ _, Ret "2024-01-01 00:00:07";
     net_connections := Ret [conn_established];
     print := λ _, Ret tt;
     sleep := Ret tt |}.

(** * Lemmas on the monad *)

Lemma bind_Ret {A B} (m : M A) (f : A → M B) s a s1 t1 :
  m s = (Ret a, s1, t1) → (m ≫= f) s = after t1 (f a s1).
Proof.
  intros Hm. unfold mbind, M_mbind, M_bind, after. rewrite Hm.
  by destruct (f a s1) as [[o s2] t2].
Qed.

Lemma run_eta {A} (r : outcome A * ProcessMonitor * list effect) o :
  outcome_of r = o → r = (o, state_of r, trace_of r).
Proof. intros <-. by destruct r as [[??]?]. Qed.

Lemma after_nil {A} (r : outcome A * ProcessMonitor * list effect) : after [] r = r.
Proof. by destruct r as [[o s] t]. Qed.

Lemma _log_start_calm w pid s :
  calm w →
  _log_start w pid s
  = (Ret tt, with_pid_info (start_update w pid) s, start_effects w pid).
Proof.
  intros Hw. unfold _log_start, try_except, start_update, start_effects, fetch.
  unfold mbind, M_mbind, M_bind, call, logging, do_print, update_pid_info.
  pose proof (calm_name w Hw pid) as Hn.
  pose proof (calm_create_time w Hw pid) as Hc.
  destruct (Process_name w pid) as [name|[?|?]|]; try done;
    [|by destruct s..].
  destruct (Process_create_time w pid) as [created|[?|?]|]; try done;
    [|by destruct s..].
  simpl. by rewrite (calm_print w Hw).
Qed.

Lemma _log_end_calm w pid s :
  calm w →
  _log_end w pid s
  = (Ret tt, with_pid_info (delete pid) s, end_effects (pid_info s) pid).
Proof.
  intros Hw. unfold _log_end, end_effects.
  unfold mbind, M_mbind, M_bind, get_self, logging, do_print, update_pid_info.
  simpl. by rewrite (calm_print w Hw).
Qed.

(** * Iteration over a set *)

Section set_iteration.
Context `{SetIter} `{Countable K}.
Implicit Types X : gset K.

Lemma elem_of_set_iter X x : x ∈ set_iter X ↔ x ∈ X.
Proof. by rewrite set_iter_perm, elem_of_elements. Qed.

Lemma NoDup_set_iter X : NoDup (set_iter X).
Proof. rewrite set_iter_perm. apply NoDup_elements. Qed.

Lemma set_iter_empty : set_iter (∅ : gset K) = [].
Proof. apply Permutation_nil_r. by rewrite set_iter_perm, elements_empty. Qed.

End set_iteration.

(** * Counting in a trace *)

Lemma count_app {A} (p : A → bool) l1 l2 :
  count p (l1 ++ l2) = count p l1 + count p l2.
Proof. induction l1 as [|x l1 IH]; simpl; [done|]. rewrite IH. lia. Qed.

Lemma count_none {A} (p : A → bool) l :
  Forall (λ x, p x = false) l → count p l = 0.
Proof. induction 1 as [|x l Hx _ IH]; simpl; [done|]. by rewrite Hx, IH. Qed.

(** Counting through a loop whose iterations each speak of their own
    element only. *)
Lemma count_bind_own {A B} `{EqDecision A} (p : B → bool) (f : A → list B) x l :
  NoDup l →
  (∀ y, y ≠ x → count p (f y) = 0) →
  count p (l ≫= f) = if decide (x ∈ l) then count p (f x) else 0.
Proof.
  intros Hl Hf. induction Hl as [|y l Hy Hl IH]; [done|].
  rewrite bind_cons, count_app, IH.
  destruct (decide (y = x)) as [->|Hne].
  - rewrite (decide_True (P := x ∈ x :: l)) by left.
    rewrite (decide_False (P := x ∈ l)) by done. lia.
  - rewrite (Hf y Hne). destruct (decide (x ∈ l)) as [Hin|Hin].
    + by rewrite (decide_True (P := x ∈ y :: l)) by by right.
    + rewrite (decide_False (P := x ∈ y :: l)); [done|].
      intros [?|?]%elem_of_cons; congruence.
Qed.

Lemma bind_ext_elem_of {A B} (f g : A → list B) l :
  (∀ x, x ∈ l → f x = g x) → l ≫= f = l ≫= g.
Proof.
  induction l as [|x l IH]; intros Hfg; [done|].
  rewrite !bind_cons, Hfg, IH; [done| |by left].
  intros y Hy. apply Hfg. by right.
Qed.

(** * The loops of the process watcher *)

Lemma for_each_log_start w l s :
  calm w →
  for_each l (_log_start w) s
  = (Ret tt,
     with_pid_info (λ m, foldl (λ m' x, start_update w x m') m l) s,
     l ≫= start_effects w).
Proof.
  intros Hw. revert s. induction l as [|x l IH]; intros s.
  - by destruct s.
  - cbn [for_each]. erewrite bind_Ret by by apply _log_start_calm.
    by rewrite IH.
Qed.

Lemma end_effects_delete m x y : x ≠ y → end_effects (delete x m) y = end_effects m y.
Proof. intros Hne. unfold end_effects. by rewrite lookup_delete_ne. Qed.

Lemma for_each_log_end w l s :
  calm w → NoDup l →
  for_each l (_log_end w) s
  = (Ret tt,
     with_pid_info (λ m, foldl (λ m' x, delete x m') m l) s,
     l ≫= end_effects (pid_info s)).
Proof.
  intros Hw Hl. revert s. induction Hl as [|x l Hx Hl IH]; intros s.
  - by destruct s.
  - cbn [for_each]. erewrite bind_Ret by by apply _log_end_calm.
    rewrite IH. unfold after. cbn [fst snd]. rewrite bind_cons.
    replace (l ≫= end_effects (pid_info (with_pid_info (delete x) s)))
      with (l ≫= end_effects (pid_info s)); [done|].
    apply bind_ext_elem_of. intros y Hy. symmetry.
    apply end_effects_delete. by intros ->.
Qed.

Lemma list_pids_calm w s :
  calm w →
  try_except (l ← call (pids w); mret (list_to_set l : gset Z))
    (except_Exception (λ e,
       logging ERROR (Text ("Failed to list PIDs: " +:+ str_exn e));;
       mret ∅)) s
  = (Ret (current_pids w), s, pids_diagnostic w).
Proof.
  intros Hw. pose proof (calm_pids w Hw) as Hp.
  unfold try_except, current_pids, pids_diagnostic.
  unfold mbind, M_mbind, M_bind, call, mret, M_mret, M_ret, except_Exception, logging.
  by destruct (pids w) as [l|e|].
Qed.

Lemma lookup_foldl_delete `{Countable K} {V} (l : list K) (m : gmap K V) x :
  foldl (λ m' y, delete y m') m l !! x = if decide (x ∈ l) then None else m !! x.
Proof.
  revert m. induction l as [|y l IH]; intros m.
  - by rewrite decide_False by apply not_elem_of_nil.
  - cbn [foldl]. rewrite IH. destruct (decide (x ∈ l)) as [Hin|Hin].
    + by rewrite decide_True by by right.
    + destruct (decide (x = y)) as [->|Hne].
      * rewrite decide_True by left. apply lookup_delete_eq.
      * rewrite decide_False; [by apply lookup_delete_ne|].
        intros [?|?]%elem_of_cons; congruence.
Qed.

Lemma lookup_start_update w y m x :
  start_update w y m !! x
  = if decide (x = y)
    then match fetch w x with Ret (name, _) => Some name | _ => m !! x end
    else m !! x.
Proof.
  unfold start_update. destruct (decide (x = y)) as [->|Hne].
  - destruct (fetch w y) as [[name created]|e|]; [apply lookup_insert_eq|done..].
  - destruct (fetch w y) as [[name created]|e|]; [by apply lookup_insert_ne|done..].
Qed.

Lemma lookup_foldl_start_update w l m x :
  foldl (λ m' y, start_update w y m') m l !! x
  = if decide (x ∈ l)
    then match fetch w x with Ret (name, _) => Some name | _ => m !! x end
    else m !! x.
Proof.
  revert m. induction l as [|y l IH]; intros m.
  - by rewrite decide_False by apply not_elem_of_nil.
  - cbn [foldl]. rewrite IH, lookup_start_update.
    destruct (decide (x = y)) as [->|Hne].
    + rewrite (decide_True (P := y ∈ y :: l)) by left.
      destruct (decide (y ∈ l)); by destruct (fetch w y) as [[??]|?|].
    + destruct (decide (x ∈ l)) as [Hin|Hin].
      * by rewrite decide_True by by right.
      * rewrite decide_False; [done|].
        intros [?|?]%elem_of_cons; congruence.
Qed.

Lemma main_poll_once_calm `{SetIter} w s :
  calm w →
  main._poll_once w s
  = (Ret tt, with_pid_info (pid_info_after w) s, process_trace w (pid_info s)).
Proof.
  intros Hw. unfold main._poll_once.
  erewrite bind_Ret by by apply list_pids_calm.
  erewrite bind_Ret by reflexivity.
  erewrite bind_Ret by by apply for_each_log_start.
  rewrite for_each_log_end by (done || apply NoDup_set_iter).
  unfold after, process_trace, pid_info_after. cbn [fst snd app].
  do 2 f_equal. f_equal. apply bind_ext_elem_of. intros x Hx.
  apply elem_of_set_iter in Hx. unfold end_effects. cbn [pid_info with_pid_info].
  rewrite lookup_foldl_start_update, decide_False; [done|].
  rewrite elem_of_set_iter. set_solver.
Qed.

(** What the dict of the process watcher holds after a poll. *)
Lemma lookup_pid_info_after `{SetIter} w m x :
  pid_info_after w m !! x
  = if decide (x ∈ current_pids w)
    then match m !! x with
         | Some name => Some name
         | None => match fetch w x with Ret (name, _) => Some name | _ => None end
         end
    else None.
Proof.
  unfold pid_info_after.
  rewrite lookup_foldl_delete, lookup_foldl_start_update.
  destruct (decide (x ∈ set_iter (dom m ∖ current_pids w))) as [He|He];
    rewrite elem_of_set_iter, elem_of_difference, elem_of_dom in He;
    destruct (decide (x ∈ set_iter (current_pids w ∖ dom m))) as [Hs|Hs];
    rewrite elem_of_set_iter, elem_of_difference, elem_of_dom in Hs;
    destruct (decide (x ∈ current_pids w)) as [Hc|Hc];
    destruct (m !! x) as [name|] eqn:Hm;
    try done; try (by destruct (fetch w x) as [[??]|?|]);
    try (by destruct He as [[??] ?]); try (by destruct Hs as [? []]).
  - destruct Hs. split; [done|]. by intros [??].
  - destruct He. split; [by eexists|done].
Qed.

(** * The loops of the connection watcher *)

Lemma _log_conn_end_calm w key s :
  calm w →
  scr._log_conn_end w key s
  = (Ret tt, with_conn_info (delete key) s, conn_end_effects (conn_info s) key).
Proof.
  intros Hw. unfold scr._log_conn_end, conn_end_effects.
  unfold mbind, M_mbind, M_bind, get_self, logging, do_print, update_conn_info.
  simpl. by rewrite (calm_print w Hw).
Qed.

Lemma conn_end_effects_delete m (x y : conn_key) :
  x ≠ y → conn_end_effects (delete x m) y = conn_end_effects m y.
Proof. intros Hne. unfold conn_end_effects. by rewrite lookup_delete_ne. Qed.

Lemma for_each_log_conn_end w l s :
  calm w → NoDup l →
  for_each l (scr._log_conn_end w) s
  = (Ret tt,
     with_conn_info (λ m, foldl (λ m' k, delete k m') m l) s,
     l ≫= conn_end_effects (conn_info s)).
Proof.
  intros Hw Hl. revert s. induction Hl as [|x l Hx Hl IH]; intros s.
  - by destruct s.
  - cbn [for_each]. erewrite bind_Ret by by apply _log_conn_end_calm.
    rewrite IH. unfold after. cbn [fst snd]. rewrite bind_cons.
    replace (l ≫= conn_end_effects (conn_info (with_conn_info (delete x) s)))
      with (l ≫= conn_end_effects (conn_info s)); [done|].
    apply bind_ext_elem_of. intros y Hy. symmetry.
    apply conn_end_effects_delete. by intros ->.
Qed.

Lemma collect_keys_run conns keys s :
  scr.collect_keys conns keys s
  = (Ret (list_to_set (scr._conn_key <$> conns) ∪ keys),
     with_conn_info (λ m, foldl store_new m conns) s, []).
Proof.
  revert keys s. induction conns as [|c conns IH]; intros keys s.
  - cbn. rewrite (left_id_L ∅ (∪)). by destruct s.
  - cbn [scr.collect_keys]. erewrite bind_Ret by reflexivity.
    rewrite after_nil.
    assert ((if decide (conn_info s !! scr._conn_key c = None)
             then update_conn_info (<[scr._conn_key c := scr.conn_record c]>)
             else mret tt) s
            = (Ret tt, with_conn_info (λ m, store_new m c) s, [])) as Hstep.
    { unfold store_new, update_conn_info, with_conn_info. cbn.
      destruct (decide (conn_info s !! scr._conn_key c = None)); [done|].
      by destruct s. }
    erewrite bind_Ret by exact Hstep.
    rewrite IH, after_nil. f_equal. f_equal. f_equal.
    rewrite fmap_cons, list_to_set_cons. set_solver.
Qed.

Lemma lookup_store_new_Some m c k i :
  m !! k = Some i → store_new m c !! k = Some i.
Proof.
  intros Hk. unfold store_new.
  destruct (decide (m !! scr._conn_key c = None)) as [Hc|Hc]; [|done].
  rewrite lookup_insert_ne; [done|]. intros <-. congruence.
Qed.

Lemma lookup_foldl_store_new_Some conns m k i :
  m !! k = Some i → foldl store_new m conns !! k = Some i.
Proof.
  revert m. induction conns as [|c conns IH]; intros m Hk; [done|].
  cbn [foldl]. by apply IH, lookup_store_new_Some.
Qed.

Lemma dom_store_new m c : dom (store_new m c) = {[scr._conn_key c]} ∪ dom m.
Proof.
  unfold store_new.
  destruct (decide (m !! scr._conn_key c = None)) as [Hc|Hc].
  - apply dom_insert_L.
  - apply not_eq_None_Some, elem_of_dom in Hc. set_solver.
Qed.

Lemma dom_foldl_store_new conns m :
  dom (foldl store_new m conns) = dom m ∪ list_to_set (scr._conn_key <$> conns).
Proof.
  revert m. induction conns as [|c conns IH]; intros m.
  - cbn. by rewrite (right_id_L ∅ (∪)).
  - cbn [foldl]. rewrite IH, dom_store_new, fmap_cons, list_to_set_cons.
    set_solver.
Qed.

Lemma list_conns_calm w s :
  calm w →
  try_except (call (net_connections w))
    (except_Exception (λ e,
       logging DEBUG
         (Text ("Failed to list network connections: " +:+ str_exn e));;
       mret [])) s
  = (Ret (current_conns w), s, conns_diagnostic w).
Proof.
  intros Hw. pose proof (calm_net_connections w Hw) as Hp.
  unfold try_except, current_conns, conns_diagnostic.
  unfold mbind, M_mbind, M_bind, call, mret, M_mret, M_ret, except_Exception, logging.
  by destruct (net_connections w) as [l|e|].
Qed.

Lemma _poll_connections_calm `{SetIter} w s :
  calm w →
  scr._poll_connections w s
  = (Ret tt, with_conn_info (conn_info_after w) s, conn_trace w (conn_info s)).
Proof.
  intros Hw. unfold scr._poll_connections.
  erewrite bind_Ret by by apply list_conns_calm.
  erewrite bind_Ret by apply collect_keys_run.
  erewrite bind_Ret by reflexivity.
  cbn [conn_info with_conn_info].
  rewrite (right_id_L ∅ (∪)), dom_foldl_store_new.
  fold (current_keys w).
  replace (current_keys w ∖ (dom (conn_info s) ∪ current_keys w))
    with (∅ : gset conn_key) by set_solver.
  replace ((dom (conn_info s) ∪ current_keys w) ∖ current_keys w)
    with (dom (conn_info s) ∖ current_keys w) by set_solver.
  rewrite set_iter_empty. cbn [for_each].
  erewrite bind_Ret by reflexivity.
  rewrite for_each_log_conn_end by (done || apply NoDup_set_iter).
  unfold after, conn_trace, conn_info_after. cbn [fst snd app].
  do 2 f_equal. apply bind_ext_elem_of. intros k Hk.
  apply elem_of_set_iter, elem_of_difference in Hk as [Hk _].
  apply elem_of_dom in Hk as [i Hi].
  unfold conn_end_effects. cbn [conn_info with_conn_info].
  by rewrite (lookup_foldl_store_new_Some _ _ _ _ Hi), Hi.
Qed.

Lemma scr_poll_once_calm `{SetIter} w s :
  calm w → monitor_network s = true →
  scr._poll_once w s
  = (Ret tt,
     with_conn_info (conn_info_after w) (with_pid_info (pid_info_after w) s),
     process_trace w (pid_info s) ++ conn_trace w (conn_info s)).
Proof.
  intros Hw Hn. unfold scr._poll_once.
  erewrite bind_Ret by by apply main_poll_once_calm.
  erewrite bind_Ret by reflexivity.
  cbn [monitor_network with_pid_info]. rewrite Hn.
  unfold try_except. rewrite _poll_connections_calm by done.
  done.
Qed.

(** What the dict of the connection watcher holds after a poll. *)
Lemma lookup_conn_info_after `{SetIter} w m k :
  conn_info_after w m !! k
  = if decide (k ∈ current_keys w)
    then foldl store_new m (current_conns w) !! k
    else None.
Proof.
  unfold conn_info_after. rewrite lookup_foldl_delete.
  destruct (decide (k ∈ set_iter (dom m ∖ current_keys w))) as [He|He];
    rewrite elem_of_set_iter, elem_of_difference in He;
    destruct (decide (k ∈ current_keys w)) as [Hc|Hc]; try done.
  - by destruct He.
  - apply not_elem_of_dom. rewrite dom_foldl_store_new.
    fold (current_keys w). set_solver.
Qed.

Lemma dom_conn_info_after `{SetIter} w m :
  dom (conn_info_after w m) = current_keys w.
Proof.
  apply set_eq. intros k. rewrite elem_of_dom, lookup_conn_info_after.
  destruct (decide (k ∈ current_keys w)) as [Hc|Hc].
  - split; [done|]. intros _. apply elem_of_dom.
    rewrite dom_foldl_store_new. fold (current_keys w). set_solver.
  - split; [by intros [??]|done].
Qed.

(** * Counting the events of a poll *)

Lemma count_bind_elem_of {A B} (p : B → bool) (f : A → list B) l :
  (∀ y, y ∈ l → count p (f y) = 0) → count p (l ≫= f) = 0.
Proof.
  induction l as [|y l IH]; intros Hf; [done|].
  rewrite bind_cons, count_app, IH, Hf; [done|by left|].
  intros z Hz. apply Hf. by right.
Qed.

Lemma count_pids_diagnostic p w :
  (∀ lv s, p (Logged lv (Text s)) = false) → count p (pids_diagnostic w) = 0.
Proof.
  intros Hp. unfold pids_diagnostic.
  destruct (pids w) as [l|e|]; [done| |done]. cbn. by rewrite Hp.
Qed.

Lemma count_conns_diagnostic p w :
  (∀ lv s, p (Logged lv (Text s)) = false) → count p (conns_diagnostic w) = 0.
Proof.
  intros Hp. unfold conns_diagnostic.
  destruct (net_connections w) as [l|e|]; [done| |done]. cbn. by rewrite Hp.
Qed.

Lemma count_started_start_effects w x y :
  count (process_started x) (start_effects w y)
  = if decide (y = x)
    then match fetch w x with Ret _ => 1 | _ => 0 end
    else 0.
Proof.
  unfold start_effects. destruct (decide (y = x)) as [->|Hne].
  - destruct (fetch w x) as [[name created]|[?|?]|]; cbn; try done.
    by rewrite bool_decide_eq_true_2.
  - destruct (fetch w y) as [[name created]|[?|?]|]; cbn; try done.
    by rewrite bool_decide_eq_false_2.
Qed.

Lemma count_ended_end_effects m x y :
  count (process_ended x) (end_effects m y) = if decide (y = x) then 1 else 0.
Proof.
  unfold end_effects. cbn. destruct (decide (y = x)) as [->|Hne].
  - by rewrite bool_decide_eq_true_2.
  - by rewrite bool_decide_eq_false_2.
Qed.

Lemma count_conn_ended_conn_end_effects m (k y : conn_key) :
  count (conn_ended k) (conn_end_effects m y) = if decide (y = k) then 1 else 0.
Proof.
  unfold conn_end_effects. cbn. destruct (decide (y = k)) as [->|Hne].
  - by rewrite bool_decide_eq_true_2.
  - by rewrite bool_decide_eq_false_2.
Qed.

Section counting.
Context `{SetIter}.

Lemma count_started_process_trace w m x :
  count (process_started x) (process_trace w m)
  = if decide (x ∈ current_pids w ∖ dom m)
    then match fetch w x with Ret _ => 1 | _ => 0 end
    else 0.
Proof.
  unfold process_trace. rewrite !count_app.
  rewrite count_pids_diagnostic by by intros [] ?.
  rewrite (count_bind_own _ (start_effects w) x) by
    (apply NoDup_set_iter || (intros y Hy; rewrite count_started_start_effects;
                              by rewrite decide_False)).
  rewrite (count_bind_elem_of _ (end_effects m)) by done.
  rewrite count_started_start_effects, (decide_True (P := x = x)) by done.
  destruct (decide (x ∈ set_iter (current_pids w ∖ dom m))) as [Hx|Hx];
    rewrite elem_of_set_iter in Hx.
  - rewrite decide_True by done. lia.
  - by rewrite decide_False by done.
Qed.

Lemma count_ended_process_trace w m x :
  count (process_ended x) (process_trace w m)
  = if decide (x ∈ dom m ∖ current_pids w) then 1 else 0.
Proof.
  unfold process_trace. rewrite !count_app.
  rewrite count_pids_diagnostic by by intros [] ?.
  rewrite (count_bind_elem_of _ (start_effects w)) by
    (intros y _; unfold start_effects;
     by destruct (fetch w y) as [[??]|[?|?]|]).
  rewrite (count_bind_own _ (end_effects m) x) by
    (apply NoDup_set_iter || (intros y Hy; rewrite count_ended_end_effects;
                              by rewrite decide_False)).
  rewrite count_ended_end_effects, (decide_True (P := x = x)) by done.
  destruct (decide (x ∈ set_iter (dom m ∖ current_pids w))) as [Hx|Hx];
    rewrite elem_of_set_iter in Hx.
  - by rewrite decide_True by done.
  - by rewrite decide_False by done.
Qed.

Lemma count_conn_ended_conn_trace w m k :
  count (conn_ended k) (conn_trace w m)
  = if decide (k ∈ dom m ∖ current_keys w) then 1 else 0.
Proof.
  unfold conn_trace. rewrite !count_app.
  rewrite count_conns_diagnostic by by intros [] ?.
  rewrite (count_bind_own _ (conn_end_effects m) k) by
    (apply NoDup_set_iter || (intros y Hy; rewrite count_conn_ended_conn_end_effects;
                              by rewrite decide_False)).
  rewrite count_conn_ended_conn_end_effects, (decide_True (P := k = k)) by done.
  destruct (decide (k ∈ set_iter (dom m ∖ current_keys w))) as [Hx|Hx];
    rewrite elem_of_set_iter in Hx.
  - by rewrite decide_True by done.
  - by rewrite decide_False by done.
Qed.

(** No record of the connection watcher is a "Connection Started". *)
Lemma count_conn_started_conn_trace w m k :
  count (conn_started k) (conn_trace w m) = 0.
Proof.
  unfold conn_trace. rewrite count_app.
  rewrite count_conns_diagnostic by by intros [] ?.
  by rewrite (count_bind_elem_of _ (conn_end_effects m)).
Qed.

(** The two watchers do not speak of each other's entities. *)
Lemma count_process_conn_trace p w m :
  (∀ e, about_process e = false → p e = false) →
  count p (conn_trace w m) = 0.
Proof.
  intros Hp. unfold conn_trace. rewrite count_app.
  rewrite count_conns_diagnostic by (intros; by apply Hp).
  rewrite (count_bind_elem_of _ (conn_end_effects m)); [done|].
  intros y _. unfold conn_end_effects. cbn. by rewrite !Hp by done.
Qed.

Lemma count_conn_process_trace p w m :
  (∀ e, about_process e = true → p e = false) →
  (∀ lv s, p (Logged lv (Text s)) = false) →
  count p (process_trace w m) = 0.
Proof.
  intros Hp Ht. unfold process_trace. rewrite !count_app.
  rewrite count_pids_diagnostic by done.
  rewrite (count_bind_elem_of _ (start_effects w)), (count_bind_elem_of _ (end_effects m));
    [done| |].
  - intros y _. unfold end_effects. cbn. by rewrite !Hp by done.
  - intros y _. unfold start_effects.
    destruct (fetch w y) as [[??]|[?|?]|]; cbn; rewrite ?Hp, ?Ht by done; done.
Qed.

End counting.

(** * Invariants of computations, whatever their outcome *)

Section respects.
Context (R : relation ProcessMonitor) (Q : effect → Prop) `{!PreOrder R}.

Lemma respects_mret {A} (a : A) : respects R Q (mret a).
Proof. intros s. by split. Qed.

Lemma respects_call {A} (o : outcome A) : respects R Q (call o).
Proof. intros s. by split. Qed.

Lemma respects_get_self : respects R Q get_self.
Proof. intros s. by split. Qed.

Lemma respects_bind {A B} (m : M A) (f : A → M B) :
  respects R Q m → (∀ a, respects R Q (f a)) → respects R Q (m ≫= f).
Proof.
  intros Hm Hf s. specialize (Hm s). unfold mbind, M_mbind, M_bind.
  destruct (m s) as [[[a|e|] s1] t1]; try done.
  specialize (Hf a s1). destruct (f a s1) as [[o s2] t2].
  cbn in *. destruct Hm, Hf. split; [by etrans|by apply Forall_app].
Qed.

Lemma respects_try_except {A} (body : M A) handler :
  respects R Q body →
  (∀ e h, handler e = Some h → respects R Q h) →
  respects R Q (try_except body handler).
Proof.
  intros Hm Hh s. specialize (Hm s). unfold try_except.
  destruct (body s) as [[[a|e|] s1] t1]; try done.
  destruct (handler e) as [h|] eqn:He; [|done].
  specialize (Hh e h He s1). destruct (h s1) as [[o s2] t2].
  cbn in *. destruct Hm, Hh. split; [by etrans|by apply Forall_app].
Qed.

Lemma respects_for_each {A} (l : list A) body :
  (∀ x, respects R Q (body x)) → respects R Q (for_each l body).
Proof.
  intros Hb. induction l as [|x l IH]; [apply respects_mret|].
  cbn [for_each]. by apply respects_bind.
Qed.

Lemma respects_logging lv m : Q (Logged lv m) → respects R Q (logging lv m).
Proof. intros Hq s. split; [done|]. cbn. by repeat constructor. Qed.

Lemma respects_do_print w m : Q (Printed m) → respects R Q (do_print w m).
Proof.
  intros Hq s. unfold do_print.
  destruct (print w (render m)) as [[]|e|]; split; try done.
  cbn. by repeat constructor.
Qed.

Lemma respects_update_conn_info f :
  (∀ s, R s (with_conn_info f s)) → respects R Q (update_conn_info f).
Proof. intros Hr s. by split. Qed.

Lemma respects_update_pid_info f :
  (∀ s, R s (with_pid_info f s)) → respects R Q (update_pid_info f).
Proof. intros Hr s. by split. Qed.

End respects.

Lemma same_process_state_preorder : PreOrder same_process_state.
Proof.
  split.
  - by intros s.
  - intros s1 s2 s3 (?&?&?) (?&?&?). repeat split; congruence.
Qed.

Lemma same_flags_preorder : PreOrder same_flags.
Proof.
  split.
  - by intros s.
  - intros s1 s2 s3 [??] [??]. split; congruence.
Qed.

Lemma True_preorder : PreOrder (λ _ _ : ProcessMonitor, True).
Proof. by split. Qed.

#[local] Existing Instance same_process_state_preorder.
#[local] Existing Instance same_flags_preorder.
#[local] Existing Instance True_preorder.

(** One step through the structure of a method. *)
Ltac respects_step :=
  first
    [ apply respects_mret | apply respects_call | apply respects_get_self
    | apply respects_logging | apply respects_do_print
    | apply respects_update_conn_info; [..|intros ?]
    | apply respects_update_pid_info; [..|intros ?]
    | apply respects_for_each; [..|intros ?]
    | apply respects_bind; [..|intros ?]
    | apply respects_try_except; [..|intros [?|?] ? [= <-]] ];
  try (by apply _).

Lemma silent_seed_pids w : silent (seed_pids w).
Proof.
  unfold silent, seed_pids, except_NoSuchProcess, except_Exception.
  by repeat respects_step.
Qed.

Lemma silent_seed_connections w : silent (scr._seed_connections w).
Proof.
  unfold silent, scr._seed_connections, except_Exception.
  by repeat respects_step.
Qed.

Lemma process_quiet_collect_keys conns keys :
  process_quiet (scr.collect_keys conns keys).
Proof.
  unfold process_quiet. revert keys.
  induction conns as [|c conns IH]; intros keys; [by respects_step|].
  cbn [scr.collect_keys]. respects_step; [respects_step|].
  respects_step; [|apply IH].
  case_decide; by repeat respects_step.
Qed.

Lemma process_quiet_poll_connections `{SetIter} w :
  process_quiet (scr._poll_connections w).
Proof.
  unfold process_quiet, scr._poll_connections, scr._log_conn_start,
    scr._log_conn_end, except_Exception.
  respects_step; [by repeat respects_step|].
  respects_step; [apply process_quiet_collect_keys|].
  by repeat respects_step.
Qed.

(** * One cycle in a calm world *)

Section cycle.
Context `{SetIter}.

Lemma scr_poll_once_calm_off w s :
  calm w → monitor_network s = false →
  scr._poll_once w s
  = (Ret tt, with_pid_info (pid_info_after w) s, process_trace w (pid_info s)).
Proof.
  intros Hw Hn. unfold scr._poll_once.
  erewrite bind_Ret by by apply main_poll_once_calm.
  erewrite bind_Ret by reflexivity.
  cbn [monitor_network with_pid_info]. rewrite Hn.
  unfold after. cbn. by rewrite app_nil_r.
Qed.

(** What every [_poll_once] does for the process watcher. *)
Lemma process_watcher_calm _poll_once w s :
  process_watcher _poll_once → calm w →
  ∃ s' t,
    _poll_once w s = (Ret tt, s', process_trace w (pid_info s) ++ t)
    ∧ pid_info s' = pid_info_after w (pid_info s)
    ∧ running s' = running s
    ∧ (∀ p : effect → bool,
         (∀ e, about_process e = false → p e = false) → count p t = 0).
Proof.
  intros [->| ->] Hw.
  - exists (with_pid_info (pid_info_after w) s), [].
    rewrite main_poll_once_calm, app_nil_r by done. done.
  - destruct (monitor_network s) eqn:Hn.
    + exists (with_conn_info (conn_info_after w) (with_pid_info (pid_info_after w) s)),
             (conn_trace w (conn_info s)).
      rewrite scr_poll_once_calm by done. repeat split.
      intros p Hp. by apply count_process_conn_trace.
    + exists (with_pid_info (pid_info_after w) s), [].
      rewrite scr_poll_once_calm_off, app_nil_r by done. done.
Qed.

End cycle.

(** * The polling loop *)

Lemma while_running_step _poll_once w ws s s' t :
  running s = true →
  _poll_once w s = (Ret tt, s', t) →
  sleep w = Ret tt →
  while_running _poll_once (w :: ws) s = after t (while_running _poll_once ws s').
Proof.
  intros Hr Hp Hs. cbn [while_running].
  erewrite bind_Ret by reflexivity. rewrite Hr, after_nil.
  erewrite bind_Ret by exact Hp. f_equal.
  erewrite bind_Ret by (unfold call; by rewrite Hs).
  by rewrite after_nil.
Qed.

(** Closes a closed decidable goal by evaluation. *)
Ltac by_evaluation :=
  first [ apply (bool_decide_unpack _); vm_compute; exact I
        | vm_compute; reflexivity ].

(** Splits a conjunction into its parts, and nothing else. *)
Ltac split_conjunction :=
  cbv zeta; repeat match goal with |- _ ∧ _ => split end.

Lemma calm_world_alpha : calm world_alpha.
Proof. by split. Qed.

Lemma calm_world_beta : calm world_beta.
Proof. by split. Qed.

Lemma calm_world_vanished : calm world_vanished.
Proof. by split. Qed.

Lemma calm_world_denied : calm world_denied.
Proof. by split. Qed.

Lemma process_started_about x e : about_process e = false → process_started x e = false.
Proof. destruct e as [[] []|[]]; done. Qed.

Lemma process_ended_about x e : about_process e = false → process_ended x e = false.
Proof. destruct e as [[] []|[]]; done. Qed.

Lemma about_pid_about x e : about_process e = false → about_pid x e = false.
Proof. destruct e as [[] []|[]]; done. Qed.

Lemma conn_ended_about k e : about_process e = true → conn_ended k e = false.
Proof. destruct e as [[] []|[]]; done. Qed.

Lemma conn_started_about k e : about_process e = true → conn_started k e = false.
Proof. destruct e as [[] []|[]]; done. Qed.

(** C1, as stated, fails for the process watcher: pid 7 is in the snapshot and
    not in the state, yet no "started" event is emitted and 7 is not stored,
    because its detail fetch raises [NoSuchProcess]. *)
Lemma C1_counterexample :
  let r := @main._poll_once elements_iter world_vanished monitor_empty in
  7%Z ∈ current_pids world_vanished
  ∧ (7%Z ∉ dom (pid_info monitor_empty))
  ∧ count (process_started 7) (trace_of r) = 0
  ∧ (7%Z ∉ dom (pid_info (state_of r))).
Proof. split_conjunction; by_evaluation. Qed.

(** C1 (amended): in a calm world, a pid that is in the snapshot and not in
    the state, and whose detail fetch succeeds, gets exactly one "started"
    event and is stored with its name; an identity (pid or connection key)
    that is in the state and not in the snapshot gets exactly one "ended"
    event and is removed; a connection key that is in the snapshot and not
    in the state is stored. *)
Theorem C1_start_end_symmetry `{SetIter} (w : world) (s : ProcessMonitor) :
  calm w →
  (∀ _poll_once, process_watcher _poll_once →
     let r := _poll_once w s in
     (∀ x name created,
        x ∈ current_pids w → x ∉ dom (pid_info s) →
        fetch w x = Ret (name, created) →
        count (process_started x) (trace_of r) = 1
        ∧ pid_info (state_of r) !! x = Some name)
     ∧ (∀ x,
        x ∈ dom (pid_info s) → x ∉ current_pids w →
        count (process_ended x) (trace_of r) = 1
        ∧ (x ∉ dom (pid_info (state_of r)))))
  ∧ (monitor_network s = true →
     let r := scr._poll_once w s in
     (∀ k,
        k ∈ current_keys w → k ∉ dom (conn_info s) →
        k ∈ dom (conn_info (state_of r)))
     ∧ (∀ k,
        k ∈ dom (conn_info s) → k ∉ current_keys w →
        count (conn_ended k) (trace_of r) = 1
        ∧ (k ∉ dom (conn_info (state_of r))))).
Proof.
  intros Hw. split.
  - intros poll Hpoll.
    destruct (process_watcher_calm poll w s Hpoll Hw) as (s' & t & -> & Hs' & _ & Ht).
    cbn [trace_of state_of fst snd]. rewrite Hs'. split.
    + intros x name created Hc Hp Hf.
      rewrite count_app, count_started_process_trace, Ht, lookup_pid_info_after
        by apply process_started_about.
      rewrite !decide_True, Hf by set_solver.
      apply not_elem_of_dom in Hp. by rewrite Hp.
    + intros x Hp Hc.
      rewrite count_app, count_ended_process_trace, Ht
        by apply process_ended_about.
      rewrite decide_True by set_solver. split; [done|].
      apply not_elem_of_dom. rewrite lookup_pid_info_after.
      by rewrite decide_False.
  - intros Hn. rewrite scr_poll_once_calm by done.
    cbn [trace_of state_of fst snd conn_info with_conn_info with_pid_info].
    rewrite dom_conn_info_after. split; [done|].
    intros k Hk Hc.
    rewrite count_app, count_conn_ended_conn_trace, count_conn_process_trace
      by (apply conn_ended_about || by intros []).
    rewrite decide_True by set_solver. done.
Qed.

Lemma C1_start_end_symmetry_witness :
  let r := @scr._poll_once elements_iter world_beta monitor_alpha in
  (count (process_started 200) (trace_of r) = 1
   ∧ pid_info (state_of r) !! 200%Z = Some "beta")
  ∧ (count (process_ended 100) (trace_of r) = 1
     ∧ (100%Z ∉ dom (pid_info (state_of r))))
  ∧ scr._conn_key conn_close_wait ∈ dom (conn_info (state_of r))
  ∧ (count (conn_ended (scr._conn_key conn_established)) (trace_of r) = 1
     ∧ (scr._conn_key conn_established ∉ dom (conn_info (state_of r)))).
Proof.
  destruct (@C1_start_end_symmetry elements_iter world_beta monitor_alpha
              calm_world_beta) as [Hp Hc].
  destruct (Hp scr._poll_once (or_intror eq_refl)) as [Hstart Hend].
  destruct (Hc eq_refl) as [Hcs Hce].
  split; [|split; [|split]].
  - apply (Hstart 200%Z "beta" "2024-01-01 00:00:01"); [by_evaluation..|reflexivity].
  - apply Hend; by_evaluation.
  - apply Hcs; by_evaluation.
  - apply Hce; by_evaluation.
Defined.

(** C2: the monitor tracks the established connection K; the next poll
    lists it in CLOSE_WAIT, under the key K2. Whatever the iteration order,
    the cycle logs one "Connection Ended" for K and stores K2, but logs no
    "Connection Started" for K2: [_poll_connections] stores K2 in
    [conn_info] before it computes [previous_keys], so [created] is empty. *)
Theorem C2_status_change_logs_no_start `{SetIter} :
  let K := scr._conn_key conn_established in
  let K2 := scr._conn_key conn_close_wait in
  let r := scr._poll_once world_beta monitor_alpha in
  K ≠ K2
  ∧ count (conn_ended K) (trace_of r) = 1
  ∧ count (conn_started K2) (trace_of r) = 0
  ∧ dom (conn_info (state_of r)) = {[K2]}.
Proof.
  intros K K2 r. unfold r.
  rewrite scr_poll_once_calm by (apply calm_world_beta || done).
  cbn [trace_of state_of fst snd conn_info with_conn_info with_pid_info].
  rewrite dom_conn_info_after, !count_app.
  rewrite count_conn_ended_conn_trace, count_conn_started_conn_trace.
  rewrite !count_conn_process_trace
    by (apply conn_ended_about || apply conn_started_about || by intros []).
  rewrite decide_True by by_evaluation.
  split_conjunction; by_evaluation.
Qed.

(** C3, as stated, fails for the process watcher: after the poll the state is
    empty although the snapshot holds pid 7, whose detail fetch raised. *)
Lemma C3_counterexample :
  let r := @main._poll_once elements_iter world_vanished monitor_empty in
  outcome_of r = Ret tt
  ∧ current_pids world_vanished = {[7%Z]}
  ∧ dom (pid_info (state_of r)) = ∅.
Proof. split_conjunction; by_evaluation. Qed.

(** C3 (amended): after a poll in a calm world, the process watcher holds
    exactly the pids of the snapshot that it already held or whose detail
    fetch succeeded (so nothing stale, and equality with the snapshot when
    every new pid could be read); the connection watcher holds exactly the
    keys of the snapshot. *)
Theorem C3_state_after_poll `{SetIter} (w : world) (s : ProcessMonitor) :
  calm w →
  (∀ _poll_once, process_watcher _poll_once →
     let r := _poll_once w s in
     (∀ x, x ∈ dom (pid_info (state_of r))
           ↔ x ∈ current_pids w
             ∧ (x ∈ dom (pid_info s) ∨ ∃ detail, fetch w x = Ret detail))
     ∧ ((∀ x, x ∈ current_pids w → x ∉ dom (pid_info s) →
              ∃ detail, fetch w x = Ret detail) →
        dom (pid_info (state_of r)) = current_pids w))
  ∧ (monitor_network s = true →
     dom (conn_info (state_of (scr._poll_once w s))) = current_keys w).
Proof.
  intros Hw.
  assert (∀ x, x ∈ dom (pid_info_after w (pid_info s))
               ↔ x ∈ current_pids w
                 ∧ (x ∈ dom (pid_info s) ∨ ∃ detail, fetch w x = Ret detail))
    as Hdom.
  { intros x. rewrite !elem_of_dom, lookup_pid_info_after.
    destruct (decide (x ∈ current_pids w)) as [Hc|Hc];
      [|split; [by intros [??]|by intros [? _]]].
    destruct (pid_info s !! x) as [name|] eqn:Hx.
    - split; [|done]. intros _. split; [done|]. by left.
    - destruct (fetch w x) as [[name created]|e|].
      + split; [|done]. intros _. split; [done|]. right. by eexists.
      + split; [by intros [??]|]. intros [_ [[??]|[??]]]; done.
      + split; [by intros [??]|]. intros [_ [[??]|[??]]]; done. }
  split.
  - intros poll Hpoll.
    destruct (process_watcher_calm poll w s Hpoll Hw) as (s' & t & -> & Hs' & _).
    cbn [state_of fst snd]. rewrite Hs'. split; [done|].
    intros Hall. apply set_eq. intros x. rewrite Hdom. split; [by intros [? _]|].
    intros Hc. split; [done|].
    destruct (decide (x ∈ dom (pid_info s))); [by left|right; by apply Hall].
  - intros Hn. rewrite scr_poll_once_calm by done.
    cbn [state_of fst snd conn_info with_conn_info with_pid_info].
    apply dom_conn_info_after.
Qed.

Lemma C3_state_after_poll_witness :
  let r := @scr._poll_once elements_iter world_beta monitor_alpha in
  dom (pid_info (state_of r)) = current_pids world_beta
  ∧ dom (conn_info (state_of r)) = current_keys world_beta.
Proof.
  destruct (@C3_state_after_poll elements_iter world_beta monitor_alpha
              calm_world_beta) as [Hp Hc].
  destruct (Hp scr._poll_once (or_intror eq_refl)) as [_ Hall].
  split; [|exact (Hc eq_refl)].
  apply Hall. intros x _ _. by exists ("beta", "2024-01-01 00:00:01").
Defined.

Lemma calm_world_alpha_vanished : calm world_alpha_vanished.
Proof. by split. Qed.

Lemma pid_info_after_failure `{SetIter} w m :
  current_pids w = ∅ → pid_info_after w m = ∅.
Proof.
  intros Hc. apply map_eq. intros x.
  rewrite lookup_pid_info_after, Hc, lookup_empty.
  by rewrite decide_False by apply not_elem_of_empty.
Qed.

Lemma conn_info_after_failure `{SetIter} w m :
  current_keys w = ∅ → conn_info_after w m = ∅.
Proof.
  intros Hc. apply map_eq. intros x.
  rewrite lookup_conn_info_after, Hc, lookup_empty.
  by rewrite decide_False by apply not_elem_of_empty.
Qed.

Lemma current_pids_Raise w e : pids w = Raise e → current_pids w = ∅.
Proof. intros Hp. unfold current_pids. by rewrite Hp. Qed.

Lemma current_keys_Raise w e : net_connections w = Raise e → current_keys w = ∅.
Proof. intros Hp. unfold current_keys, current_conns. by rewrite Hp. Qed.

(** C4, as stated, fails for the process watcher: the enumeration fails on
    the first poll and pid 100 is reported "ended"; the second poll
    enumerates pid 100 again, but its detail fetch raises and no "started"
    event is emitted. *)
Lemma C4_counterexample :
  let r1 := @main._poll_once elements_iter world_denied monitor_alpha in
  let r2 := @main._poll_once elements_iter world_alpha_vanished (state_of r1) in
  pids world_denied = Raise (OtherError "access denied")
  ∧ count (process_ended 100) (trace_of r1) = 1
  ∧ pid_info (state_of r1) = ∅
  ∧ pids world_alpha_vanished = Ret [100%Z]
  ∧ count (process_started 100) (trace_of r2) = 0.
Proof. split_conjunction; by_evaluation. Qed.

(** C4 (amended): in calm worlds, when the enumeration of a watcher fails
    on a poll, every identity the watcher tracks is reported "ended" once
    during that poll and its state is left empty. On the next poll, every
    pid that is enumerated and whose detail fetch succeeds is reported
    "started" once, and every connection key that is enumerated is stored
    again. *)
Theorem C4_degrade_to_empty `{SetIter} (w1 w2 : world) (s : ProcessMonitor) :
  calm w1 → calm w2 →
  (∀ _poll_once e, process_watcher _poll_once →
     pids w1 = Raise e →
     let r1 := _poll_once w1 s in
     let r2 := _poll_once w2 (state_of r1) in
     (∀ x, x ∈ dom (pid_info s) → count (process_ended x) (trace_of r1) = 1)
     ∧ pid_info (state_of r1) = ∅
     ∧ (∀ x detail, x ∈ current_pids w2 → fetch w2 x = Ret detail →
          count (process_started x) (trace_of r2) = 1))
  ∧ (∀ e, monitor_network s = true →
     net_connections w1 = Raise e →
     let r1 := scr._poll_once w1 s in
     let r2 := scr._poll_once w2 (state_of r1) in
     (∀ k, k ∈ dom (conn_info s) → count (conn_ended k) (trace_of r1) = 1)
     ∧ conn_info (state_of r1) = ∅
     ∧ dom (conn_info (state_of r2)) = current_keys w2).
Proof.
  intros Hw1 Hw2. split.
  - intros poll e Hpoll He.
    destruct (process_watcher_calm poll w1 s Hpoll Hw1)
      as (s1 & t1 & -> & Hs1 & _ & Ht1).
    cbn [trace_of state_of fst snd].
    destruct (process_watcher_calm poll w2 s1 Hpoll Hw2)
      as (s2 & t2 & -> & Hs2 & _ & Ht2).
    cbn [trace_of state_of fst snd].
    apply current_pids_Raise in He.
    rewrite pid_info_after_failure in Hs1 by done.
    split; [|split; [done|]].
    + intros x Hx.
      rewrite count_app, count_ended_process_trace, Ht1, He
        by apply process_ended_about.
      by rewrite decide_True by set_solver.
    + intros x detail Hx Hf.
      rewrite count_app, count_started_process_trace, Ht2, Hs1, Hf
        by apply process_started_about.
      by rewrite decide_True by set_solver.
  - intros e Hn He.
    rewrite scr_poll_once_calm by done.
    cbn [trace_of state_of fst snd].
    rewrite scr_poll_once_calm by done.
    cbn [trace_of state_of fst snd conn_info with_conn_info with_pid_info].
    apply current_keys_Raise in He.
    split; [|split].
    + intros k Hk.
      rewrite count_app, count_conn_ended_conn_trace, count_conn_process_trace, He
        by (apply conn_ended_about || by intros []).
      by rewrite decide_True by set_solver.
    + by apply conn_info_after_failure.
    + apply dom_conn_info_after.
Qed.

Lemma C4_degrade_to_empty_witness :
  let r1 := @scr._poll_once elements_iter world_denied monitor_alpha in
  let r2 := @scr._poll_once elements_iter world_alpha (state_of r1) in
  (count (process_ended 100) (trace_of r1) = 1
   ∧ pid_info (state_of r1) = ∅
   ∧ count (process_started 100) (trace_of r2) = 1)
  ∧ (count (conn_ended (scr._conn_key conn_established)) (trace_of r1) = 1
     ∧ conn_info (state_of r1) = ∅
     ∧ dom (conn_info (state_of r2)) = current_keys world_alpha).
Proof.
  destruct (@C4_degrade_to_empty elements_iter world_denied world_alpha monitor_alpha
              calm_world_denied calm_world_alpha) as [Hp Hc].
  destruct (Hp scr._poll_once (OtherError "access denied") (or_intror eq_refl) eq_refl)
    as (Hend & Hempty & Hstart).
  destruct (Hc (OtherError "access denied") eq_refl eq_refl)
    as (Hcend & Hcempty & Hcdom).
  split; (split; [|split]).
  - apply Hend. by_evaluation.
  - exact Hempty.
  - apply (Hstart 100%Z ("alpha", "2024-01-01 00:00:00")); [by_evaluation|reflexivity].
  - apply Hcend. by_evaluation.
  - exact Hcempty.
  - exact Hcdom.
Defined.

(** C5: constructing the monitor emits nothing, in any world: no log
    record and no printed line, whatever the initial snapshot holds and
    whatever the seeding calls answer. *)
Theorem C5_seeding_silence (w : world) :
  trace_of (main.__init__ w) = [] ∧ trace_of (scr.__init__ w) = [].
Proof.
  assert (∀ A (m : M A) s, silent m → (m s).2 = []) as Hsilent.
  { intros A m s Hm. destruct (Hm s) as [_ Ht].
    destruct ((m s).2) as [|e t]; [done|]. by apply Forall_cons in Ht as [[] _]. }
  split.
  - apply Hsilent. unfold silent.
    respects_step; [respects_step|].
    respects_step; [respects_step|].
    apply silent_seed_pids.
  - apply Hsilent. unfold silent, except_Exception.
    respects_step; [respects_step|].
    respects_step; [respects_step|].
    respects_step; [apply silent_seed_pids|].
    respects_step; [respects_step|].
    match goal with |- context [monitor_network ?self] =>
      destruct (monitor_network self); [|by respects_step]
    end.
    respects_step; [apply silent_seed_connections|by respects_step..].
Qed.

(** The seeds of the two scenarios of the specification: a non-empty
    snapshot is stored and nothing is emitted. *)
Example seeding_world_alpha :
  let r := scr.__init__ world_alpha in
  outcome_of r = Ret tt
  ∧ map_to_list (pid_info (state_of r)) = [(100%Z, "alpha")]
  ∧ map_to_list (conn_info (state_of r))
    = [(scr._conn_key conn_established, scr.conn_record conn_established)]
  ∧ trace_of r = [].
Proof. by vm_compute. Qed.

Lemma count_zero_elem_of {A} (p : A → bool) l x :
  count p l = 0 → x ∈ l → p x = false.
Proof.
  induction l as [|y l IH]; intros Hc Hx; [by apply elem_of_nil in Hx|].
  cbn in Hc. apply elem_of_cons in Hx as [->|Hx].
  - destruct (p y); [lia|done].
  - apply IH; [|done]. destruct (p y); lia.
Qed.

Section ended_events.
Context `{SetIter}.

Lemma elem_of_process_trace_ended w m e x name :
  e ∈ process_trace w m → message e = ProcessEnded x name →
  x ∈ dom m ∖ current_pids w ∧ name = truthy (m !! x).
Proof.
  unfold process_trace. rewrite !elem_of_app, !list_elem_of_bind.
  intros [He|[(y & He & Hy)|(y & He & Hy)]] Hm.
  - unfold pids_diagnostic in He.
    destruct (pids w); [by apply elem_of_nil in He| |by apply elem_of_nil in He].
    apply list_elem_of_singleton in He as ->. done.
  - unfold start_effects in He.
    destruct (fetch w y) as [[??]|[?|?]|];
      repeat (apply elem_of_cons in He as [->|He]; [done|]);
      by apply elem_of_nil in He.
  - apply elem_of_set_iter in Hy. unfold end_effects in He.
    repeat (apply elem_of_cons in He as [->|He]; [by injection Hm as <- <-|]).
    by apply elem_of_nil in He.
Qed.

Lemma elem_of_conn_trace_ended w m e k l r st p :
  e ∈ conn_trace w m → message e = ConnectionEnded k l r st p →
  k ∈ dom m ∖ current_keys w
  ∧ l = m !! k ≫= laddr ∧ r = m !! k ≫= raddr
  ∧ st = status <$> m !! k ∧ p = pid <$> m !! k.
Proof.
  unfold conn_trace. rewrite !elem_of_app, !list_elem_of_bind.
  intros [He|(y & He & Hy)] Hm.
  - unfold conns_diagnostic in He.
    destruct (net_connections w);
      [by apply elem_of_nil in He| |by apply elem_of_nil in He].
    apply list_elem_of_singleton in He as ->. done.
  - apply elem_of_set_iter in Hy. unfold conn_end_effects in He.
    repeat (apply elem_of_cons in He as [->|He];
            [by injection Hm as <- <- <- <- <-|]).
    by apply elem_of_nil in He.
Qed.

Lemma lookup_conn_info_after_Some w m k i :
  m !! k = Some i → k ∈ current_keys w → conn_info_after w m !! k = Some i.
Proof.
  intros Hk Hc. rewrite lookup_conn_info_after, decide_True by done.
  by apply lookup_foldl_store_new_Some.
Qed.

End ended_events.

(** C6: every "ended" message of a poll, logged or printed, reports what
    the state held for that identity before the poll: the cached name of the
    pid (left out when it is empty), or the addresses, status and pid stored
    under the connection key. The cached details of an identity that is
    still in the snapshot are not overwritten by the poll, so they are the
    ones stored when the identity was recorded. *)
Theorem C6_end_detail_retention `{SetIter} (w : world) (s : ProcessMonitor) :
  calm w →
  (∀ _poll_once, process_watcher _poll_once →
     let r := _poll_once w s in
     (∀ e x name,
        e ∈ trace_of r → message e = ProcessEnded x name →
        ∃ cached, pid_info s !! x = Some cached ∧ name = truthy (Some cached))
     ∧ (∀ x cached,
        pid_info s !! x = Some cached → x ∈ current_pids w →
        pid_info (state_of r) !! x = Some cached))
  ∧ (monitor_network s = true →
     let r := scr._poll_once w s in
     (∀ e k l r' st p,
        e ∈ trace_of r → message e = ConnectionEnded k l r' st p →
        ∃ i, conn_info s !! k = Some i
             ∧ l = laddr i ∧ r' = raddr i
             ∧ st = Some (status i) ∧ p = Some (pid i))
     ∧ (∀ k i,
        conn_info s !! k = Some i → k ∈ current_keys w →
        conn_info (state_of r) !! k = Some i)).
Proof.
  intros Hw. split.
  - intros poll Hpoll.
    destruct (process_watcher_calm poll w s Hpoll Hw) as (s' & t & -> & Hs' & _ & Ht).
    cbn [trace_of state_of fst snd]. rewrite Hs'. split.
    + intros e x name [He|He]%elem_of_app Hm.
      * destruct (elem_of_process_trace_ended _ _ _ _ _ He Hm) as [Hx ->].
        apply elem_of_difference in Hx as [[cached Hc]%elem_of_dom _].
        exists cached. by rewrite Hc.
      * apply (count_zero_elem_of about_process) in He; [|by apply Ht].
        destruct e as [lv m|m]; cbn in Hm; by subst m.
    + intros x cached Hx Hc.
      by rewrite lookup_pid_info_after, decide_True, Hx by done.
  - intros Hn. rewrite scr_poll_once_calm by done.
    cbn [trace_of state_of fst snd conn_info with_conn_info with_pid_info].
    split.
    + intros e k l r' st p [He|He]%elem_of_app Hm.
      * apply (count_zero_elem_of (λ e, match message e with
                                        | ConnectionEnded _ _ _ _ _ => true
                                        | _ => false
                                        end)) in He; [by rewrite Hm in He|].
        apply count_conn_process_trace; [|done].
        intros e'. by destruct e' as [[] []|[]].
      * destruct (elem_of_conn_trace_ended _ _ _ _ _ _ _ _ He Hm)
          as (Hk & -> & -> & -> & ->).
        apply elem_of_difference in Hk as [[i Hi]%elem_of_dom _].
        exists i. by rewrite Hi.
    + intros k i. apply lookup_conn_info_after_Some.
Qed.

Lemma C6_end_detail_retention_witness :
  let r := @scr._poll_once elements_iter world_beta monitor_alpha in
  (∃ cached, pid_info monitor_alpha !! 100%Z = Some cached
             ∧ Some "alpha" = truthy (Some cached))
  ∧ (∃ i, conn_info monitor_alpha !! scr._conn_key conn_established = Some i
          ∧ Some "10.0.0.1:5000" = laddr i ∧ Some "10.0.0.2:80" = raddr i
          ∧ Some "ESTABLISHED" = Some (status i) ∧ Some "42" = Some (pid i)).
Proof.
  destruct (@C6_end_detail_retention elements_iter world_beta monitor_alpha
              calm_world_beta) as [Hp Hc].
  destruct (Hp scr._poll_once (or_intror eq_refl)) as [Hname _].
  destruct (Hc eq_refl) as [Hdetail _].
  split.
  - apply (Hname (Logged INFO (ProcessEnded 100 (Some "alpha")))); [|reflexivity].
    apply list_elem_of_In. vm_compute. tauto.
  - apply (Hdetail
             (Logged INFO
                (ConnectionEnded (scr._conn_key conn_established)
                   (Some "10.0.0.1:5000") (Some "10.0.0.2:80")
                   (Some "ESTABLISHED") (Some "42"))));
      [|reflexivity].
    apply list_elem_of_In. vm_compute. tauto.
Defined.

Section repoll.
Context `{SetIter}.

(** A poll of the state that a poll with the same enumeration snapshot
    has just produced: the process part can only start a pid that the first
    poll could not read. *)
Lemma lifecycle_process_repoll w1 w2 m e :
  current_pids w2 = current_pids w1 →
  e ∈ process_trace w2 (pid_info_after w1 m) → lifecycle e = true →
  ∃ x name created,
    message e = ProcessStarted x name created
    ∧ x ∈ current_pids w1 ∧ (x ∉ dom m)
    ∧ (∀ n c, fetch w1 x ≠ Ret (n, c))
    ∧ fetch w2 x = Ret (name, created).
Proof.
  intros Hcur. unfold process_trace. rewrite !elem_of_app, !list_elem_of_bind.
  intros [He|[(y & He & Hy)|(y & He & Hy)]] Hl.
  - unfold pids_diagnostic in He.
    destruct (pids w2); [by apply elem_of_nil in He| |by apply elem_of_nil in He].
    by apply list_elem_of_singleton in He as ->.
  - apply elem_of_set_iter, elem_of_difference in Hy as [Hc Hd].
    rewrite Hcur in Hc. apply not_elem_of_dom in Hd.
    rewrite lookup_pid_info_after, decide_True in Hd by done.
    destruct (m !! y) as [cached|] eqn:Hm; [done|].
    unfold start_effects in He.
    destruct (fetch w2 y) as [[name created]|[?|?]|] eqn:Hf2.
    + exists y, name, created. split; [|split; [done|split; [|split; [|done]]]].
      * repeat (apply elem_of_cons in He as [->|He]; [done|]).
        by apply elem_of_nil in He.
      * by apply not_elem_of_dom.
      * intros n c Hf1. by rewrite Hf1 in Hd.
    + by apply elem_of_nil in He.
    + by apply list_elem_of_singleton in He as ->.
    + by apply elem_of_nil in He.
  - apply elem_of_set_iter, elem_of_difference in Hy as [[name Hx]%elem_of_dom Hc].
    rewrite Hcur in Hc. rewrite lookup_pid_info_after in Hx.
    by rewrite decide_False in Hx.
Qed.

(** The connection part emits no lifecycle message then. *)
Lemma lifecycle_conn_repoll w1 w2 m e :
  current_keys w2 = current_keys w1 →
  e ∈ conn_trace w2 (conn_info_after w1 m) → lifecycle e = false.
Proof.
  intros Hcur He. apply (count_zero_elem_of lifecycle) in He; [done|].
  unfold conn_trace. rewrite count_app.
  rewrite count_conns_diagnostic by done.
  rewrite (count_bind_elem_of _ (conn_end_effects (conn_info_after w1 m))); [done|].
  intros k [Hk Hc]%elem_of_set_iter%elem_of_difference.
  by rewrite dom_conn_info_after, <- Hcur in Hk.
Qed.

End repoll.

(** C7, as stated, fails for the process watcher: the two polls see the
    same enumeration snapshot, pid 100, but the detail fetch of the new pid
    raises [NoSuchProcess] during the first poll and answers during the
    second, which therefore emits the "started" event of pid 100. *)
Lemma C7_counterexample :
  let r1 := @main._poll_once elements_iter world_alpha_vanished monitor_empty in
  let r2 := @main._poll_once elements_iter world_alpha (state_of r1) in
  current_pids world_alpha = current_pids world_alpha_vanished
  ∧ current_keys world_alpha = current_keys world_alpha_vanished
  ∧ count (process_started 100) (trace_of r2) = 1
  ∧ count lifecycle (trace_of r2) = 2.
Proof. split_conjunction; by_evaluation. Qed.

(** C7 (amended): in calm worlds, when the second of two consecutive
    polls sees the enumeration snapshot of the first, it returns, and the
    only lifecycle messages it can emit are the "started" messages of a pid
    that was new to the first poll, could not be read then, and can be read
    now; it emits no "ended" message and no connection message. So it
    emits no lifecycle message at all when every pid that the first poll
    could not read still cannot be read: in particular when the first poll
    could read every new pid, and when the detail fetches answer the second
    poll as they answered the first. This holds for the process watcher of
    either file and for the connection watcher, from any state. *)
Theorem C7_idempotent_repoll `{SetIter} (w1 w2 : world) (s : ProcessMonitor)
    (_poll_once : world → M unit) :
  calm w1 → calm w2 → process_watcher _poll_once →
  current_pids w2 = current_pids w1 →
  current_keys w2 = current_keys w1 →
  let r1 := _poll_once w1 s in
  let r2 := _poll_once w2 (state_of r1) in
  outcome_of r2 = Ret tt
  ∧ (∀ e, e ∈ trace_of r2 → lifecycle e = true →
       ∃ x name created,
         message e = ProcessStarted x name created
         ∧ x ∈ current_pids w1 ∧ (x ∉ dom (pid_info s))
         ∧ (∀ n c, fetch w1 x ≠ Ret (n, c))
         ∧ fetch w2 x = Ret (name, created))
  ∧ ((∀ x, x ∈ current_pids w1 → x ∉ dom (pid_info s) →
        (∀ n c, fetch w1 x ≠ Ret (n, c)) → ∀ n c, fetch w2 x ≠ Ret (n, c)) →
     count lifecycle (trace_of r2) = 0).
Proof.
  intros Hw1 Hw2 Hpoll Hpids Hkeys. cbv zeta.
  assert (outcome_of (_poll_once w2 (state_of (_poll_once w1 s))) = Ret tt
          ∧ ∀ e, e ∈ trace_of (_poll_once w2 (state_of (_poll_once w1 s))) →
                 lifecycle e = true →
                 ∃ x name created,
                   message e = ProcessStarted x name created
                   ∧ x ∈ current_pids w1 ∧ (x ∉ dom (pid_info s))
                   ∧ (∀ n c, fetch w1 x ≠ Ret (n, c))
                   ∧ fetch w2 x = Ret (name, created)) as [Hret Hevents].
  { destruct Hpoll as [->| ->].
    - rewrite (main_poll_once_calm w1 s) by done. cbn [state_of fst snd].
      rewrite main_poll_once_calm by done.
      cbn [trace_of outcome_of fst snd pid_info with_pid_info].
      split; [done|]. intros e. by apply lifecycle_process_repoll.
    - destruct (monitor_network s) eqn:Hn.
      + rewrite (scr_poll_once_calm w1 s) by done. cbn [state_of fst snd].
        rewrite scr_poll_once_calm by done.
        cbn [trace_of outcome_of fst snd pid_info conn_info
               with_pid_info with_conn_info].
        split; [done|]. intros e [He|He]%elem_of_app Hl.
        * by apply (lifecycle_process_repoll w1 w2 (pid_info s) e).
        * apply (lifecycle_conn_repoll w1 w2) in He; [|done]. congruence.
      + rewrite (scr_poll_once_calm_off w1 s) by done. cbn [state_of fst snd].
        rewrite scr_poll_once_calm_off by done.
        cbn [trace_of outcome_of fst snd pid_info with_pid_info].
        split; [done|]. intros e. by apply lifecycle_process_repoll. }
  split; [exact Hret|]. split; [exact Hevents|].
  intros Hsame. apply count_none, Forall_forall. intros e He.
  destruct (lifecycle e) eqn:Hl; [|done].
  destruct (Hevents e He Hl) as (x & name & created & _ & Hx & Hd & Hf1 & Hf2).
  by destruct (Hsame x Hx Hd Hf1 name created).
Qed.

Lemma C7_idempotent_repoll_witness :
  let r1 := @scr._poll_once elements_iter world_beta monitor_alpha in
  let r2 := @scr._poll_once elements_iter world_beta (state_of r1) in
  count lifecycle (trace_of r1) = 6
  ∧ outcome_of r2 = Ret tt ∧ count lifecycle (trace_of r2) = 0.
Proof.
  split; [by_evaluation|].
  destruct (@C7_idempotent_repoll elements_iter world_beta world_beta
              monitor_alpha scr._poll_once calm_world_beta calm_world_beta
              (or_intror eq_refl) eq_refl eq_refl) as (Hret & _ & Hnone).
  split; [exact Hret|]. apply Hnone. intros x _ _ Hf. exact Hf.
Defined.

Section failed_enumeration.
Context `{SetIter}.

Lemma count_error_process_trace w m e :
  pids w = Raise e → count error_record (process_trace w m) = 1.
Proof.
  intros He. unfold process_trace.
  rewrite (current_pids_Raise w e He), !count_app.
  replace (∅ ∖ dom m) with (∅ : gset Z) by set_solver.
  rewrite set_iter_empty.
  rewrite (count_bind_elem_of _ (end_effects m)) by done.
  unfold pids_diagnostic. by rewrite He.
Qed.

Lemma count_error_conn_trace w m : count error_record (conn_trace w m) = 0.
Proof.
  unfold conn_trace. rewrite count_app.
  rewrite (count_bind_elem_of _ (conn_end_effects m)) by done.
  unfold conns_diagnostic. by destruct (net_connections w).
Qed.

Lemma count_debug_conn_trace w m e :
  net_connections w = Raise e → count debug_record (conn_trace w m) = 1.
Proof.
  intros He. unfold conn_trace. rewrite count_app.
  rewrite (count_bind_elem_of _ (conn_end_effects m)) by done.
  unfold conns_diagnostic. by rewrite He.
Qed.

(** A failed enumeration is a diagnostic followed by the poll of an empty
    snapshot, in any world. *)
Lemma main_poll_once_Raise w s e :
  pids w = Raise e →
  main._poll_once w s
  = after [Logged ERROR (Text ("Failed to list PIDs: " +:+ str_exn e))]
      (main._poll_once (no_pids w) s).
Proof.
  intros He. unfold main._poll_once at 1.
  erewrite bind_Ret; last first.
  { unfold try_except, mbind, M_mbind, M_bind, call. rewrite He. reflexivity. }
  f_equal. symmetry. unfold main._poll_once.
  erewrite bind_Ret by reflexivity. by rewrite after_nil.
Qed.

Lemma poll_connections_Raise w s e :
  net_connections w = Raise e →
  scr._poll_connections w s
  = after [Logged DEBUG
             (Text ("Failed to list network connections: " +:+ str_exn e))]
      (scr._poll_connections (no_connections w) s).
Proof.
  intros He. unfold scr._poll_connections at 1.
  erewrite bind_Ret; last first.
  { unfold try_except, mbind, M_mbind, M_bind, call. rewrite He. reflexivity. }
  f_equal. symmetry. unfold scr._poll_connections.
  erewrite bind_Ret by reflexivity. by rewrite after_nil.
Qed.

End failed_enumeration.

(** C8, as stated, fails for the connection watcher: when
    [psutil.net_connections()] raises, the poll of the connection watcher
    logs no record of level [ERROR]; its one diagnostic has level [DEBUG]. *)
Lemma C8_counterexample :
  let r := @scr._poll_connections elements_iter world_denied monitor_alpha in
  net_connections world_denied = Raise (OtherError "access denied")
  ∧ outcome_of r = Ret tt
  ∧ count error_record (trace_of r) = 0
  ∧ count debug_record (trace_of r) = 1.
Proof. split_conjunction; by_evaluation. Qed.

(** C8 (amended): in a calm world, a poll whose pid enumeration fails logs
    exactly one record of level [ERROR] and goes on as the poll of an empty
    snapshot; a poll whose connection enumeration fails reports it once at
    level [DEBUG], logs nothing at level [ERROR], and goes on as the poll of
    an empty snapshot; in both cases [_poll_once] returns and the loop goes
    on to the next cycle. *)
Theorem C8_enumeration_failure `{SetIter} (w : world) (s : ProcessMonitor)
    (_poll_once : world → M unit) :
  calm w → process_watcher _poll_once →
  let r := _poll_once w s in
  (∀ e, pids w = Raise e →
     count error_record (trace_of r) = 1
     ∧ main._poll_once w s
       = after [Logged ERROR (Text ("Failed to list PIDs: " +:+ str_exn e))]
           (main._poll_once (no_pids w) s))
  ∧ (∀ e, net_connections w = Raise e →
     let c := scr._poll_connections w s in
     count error_record (trace_of c) = 0
     ∧ count debug_record (trace_of c) = 1
     ∧ c = after [Logged DEBUG
                    (Text ("Failed to list network connections: " +:+ str_exn e))]
             (scr._poll_connections (no_connections w) s))
  ∧ outcome_of r = Ret tt
  ∧ (∀ ws, running s = true → sleep w = Ret tt →
       while_running _poll_once (w :: ws) s
       = after (trace_of r) (while_running _poll_once ws (state_of r))).
Proof.
  intros Hw Hpoll. cbv zeta. split; [|split; [|split]].
  - intros e He. split; [|by apply main_poll_once_Raise].
    destruct Hpoll as [->| ->].
    + rewrite main_poll_once_calm by done.
      by apply (count_error_process_trace _ _ e).
    + destruct (monitor_network s) eqn:Hn.
      * rewrite scr_poll_once_calm by done. cbn [trace_of snd].
        rewrite count_app, count_error_conn_trace.
        by rewrite (count_error_process_trace _ _ e).
      * rewrite scr_poll_once_calm_off by done.
        by apply (count_error_process_trace _ _ e).
  - intros e He. rewrite _poll_connections_calm by done. cbn [trace_of snd].
    rewrite count_error_conn_trace, (count_debug_conn_trace _ _ e) by done.
    repeat split. rewrite <- _poll_connections_calm by done.
    by apply poll_connections_Raise.
  - by destruct (process_watcher_calm _poll_once w s Hpoll Hw) as (s' & t & -> & _).
  - intros ws Hr Hs.
    destruct (process_watcher_calm _poll_once w s Hpoll Hw) as (s' & t & Hrun & _).
    rewrite Hrun. by apply while_running_step.
Qed.

Lemma C8_enumeration_failure_witness :
  let r := @scr._poll_once elements_iter world_denied monitor_alpha in
  let c := @scr._poll_connections elements_iter world_denied monitor_alpha in
  count error_record (trace_of r) = 1
  ∧ count error_record (trace_of c) = 0
  ∧ count debug_record (trace_of c) = 1
  ∧ outcome_of r = Ret tt
  ∧ while_running (@scr._poll_once elements_iter) [world_denied; world_alpha]
      monitor_alpha
    = after (trace_of r)
        (while_running (@scr._poll_once elements_iter) [world_alpha] (state_of r)).
Proof.
  destruct (@C8_enumeration_failure elements_iter world_denied monitor_alpha
              scr._poll_once calm_world_denied (or_intror eq_refl))
    as (Hp & Hc & Hret & Hloop).
  destruct (Hp (OtherError "access denied") eq_refl) as [Herr _].
  destruct (Hc (OtherError "access denied") eq_refl) as (Hcerr & Hcdbg & _).
  split; [exact Herr|]. split; [exact Hcerr|]. split; [exact Hcdbg|].
  split; [exact Hret|]. apply Hloop; reflexivity.
Defined.

Lemma same_flags_main_poll_once `{SetIter} w :
  respects same_flags (λ _, True) (main._poll_once w).
Proof.
  unfold main._poll_once, _log_start, _log_end, except_Exception.
  by repeat respects_step.
Qed.

Section retry.
Context `{SetIter}.

Lemma count_about_pid_failed_start w m x e :
  x ∉ dom m → fetch w x = Raise e →
  count (about_pid x) (process_trace w m) = 0.
Proof.
  intros Hx He. unfold process_trace. rewrite !count_app.
  rewrite count_pids_diagnostic by done.
  rewrite (count_bind_elem_of _ (start_effects w)),
    (count_bind_elem_of _ (end_effects m)); [done| |].
  - intros y [Hy _]%elem_of_set_iter%elem_of_difference.
    unfold end_effects. cbn. rewrite bool_decide_eq_false_2; [done|].
    by intros ->.
  - intros y _. unfold start_effects. destruct (decide (y = x)) as [->|Hne].
    + rewrite He. by destruct e.
    + destruct (fetch w y) as [[??]|[?|?]|]; cbn; [|done..].
      by rewrite bool_decide_eq_false_2.
Qed.

End retry.

(** C9: in calm worlds, when the detail fetch of a newly appeared pid
    raises, the poll emits no lifecycle message about the pid and does not
    store it; if the next poll enumerates the pid, the pid is again in
    [created], and that poll emits its "started" event and stores it when
    the fetch succeeds, or again emits nothing when the fetch raises. *)
Theorem C9_failed_start_is_retried `{SetIter} (w1 w2 : world) (s : ProcessMonitor)
    (_poll_once : world → M unit) (x : Z) (e : Exception) :
  calm w1 → calm w2 → process_watcher _poll_once →
  x ∈ current_pids w1 → x ∉ dom (pid_info s) → fetch w1 x = Raise e →
  let r1 := _poll_once w1 s in
  let r2 := _poll_once w2 (state_of r1) in
  count (about_pid x) (trace_of r1) = 0
  ∧ (x ∉ dom (pid_info (state_of r1)))
  ∧ (x ∈ current_pids w2 →
     x ∈ current_pids w2 ∖ dom (pid_info (state_of r1))
     ∧ (∀ name created, fetch w2 x = Ret (name, created) →
          count (process_started x) (trace_of r2) = 1
          ∧ pid_info (state_of r2) !! x = Some name)
     ∧ (∀ e', fetch w2 x = Raise e' →
          count (about_pid x) (trace_of r2) = 0
          ∧ (x ∉ dom (pid_info (state_of r2))))).
Proof.
  intros Hw1 Hw2 Hpoll Hc Hx He. cbv zeta.
  destruct (process_watcher_calm _poll_once w1 s Hpoll Hw1)
    as (s1 & t1 & -> & Hs1 & _ & Ht1).
  cbn [trace_of state_of fst snd].
  destruct (process_watcher_calm _poll_once w2 s1 Hpoll Hw2)
    as (s2 & t2 & -> & Hs2 & _ & Ht2).
  cbn [trace_of state_of fst snd].
  assert (x ∉ dom (pid_info s1)) as Hx1.
  { rewrite Hs1. apply not_elem_of_dom.
    rewrite lookup_pid_info_after, decide_True, He by done.
    apply not_elem_of_dom in Hx. by rewrite Hx. }
  split; [|split; [done|]].
  { rewrite count_app, (count_about_pid_failed_start _ _ _ e), Ht1;
      [done|apply about_pid_about|done..]. }
  intros Hc2. split; [by apply elem_of_difference|]. split.
  - intros name created Hf.
    rewrite count_app, count_started_process_trace, Ht2, Hs2, lookup_pid_info_after
      by apply process_started_about.
    rewrite !decide_True, Hf by set_solver.
    apply not_elem_of_dom in Hx1. by rewrite Hx1.
  - intros e' Hf.
    rewrite count_app, (count_about_pid_failed_start _ _ _ e'), Ht2;
      [|apply about_pid_about|done..].
    split; [done|]. rewrite Hs2. apply not_elem_of_dom.
    rewrite lookup_pid_info_after, decide_True, Hf by done.
    apply not_elem_of_dom in Hx1. by rewrite Hx1.
Qed.

Lemma C9_failed_start_is_retried_witness :
  let r1 := @main._poll_once elements_iter world_alpha_vanished monitor_empty in
  let r2 := @main._poll_once elements_iter world_alpha (state_of r1) in
  count (about_pid 100) (trace_of r1) = 0
  ∧ (100%Z ∉ dom (pid_info (state_of r1)))
  ∧ count (process_started 100) (trace_of r2) = 1
  ∧ pid_info (state_of r2) !! 100%Z = Some "alpha".
Proof.
  destruct (@C9_failed_start_is_retried elements_iter
              world_alpha_vanished world_alpha monitor_empty main._poll_once
              100%Z (NoSuchProcess "process no longer exists (pid=100)")
              calm_world_alpha_vanished calm_world_alpha (or_introl eq_refl))
    as (Hnone & Habsent & Hnext); [by_evaluation..|reflexivity|].
  destruct Hnext as (_ & Hok & _); [by_evaluation|].
  split; [exact Hnone|]. split; [exact Habsent|].
  exact (Hok "alpha" "2024-01-01 00:00:00" eq_refl).
Defined.

(** C10: when the process part of the cycle has returned and
    [_poll_connections] raises an [Exception], [_poll_once] returns
    normally: the exception is dropped, [pid_info] is what the process part
    left, the connection step has added no process message to the trace,
    and the loop goes on to the next cycle. *)
Theorem C10_connection_failure_is_swallowed `{SetIter} (w : world)
    (s s2 : ProcessMonitor) (e : Exception) (t2 : list effect) :
  let r1 := main._poll_once w s in
  outcome_of r1 = Ret tt →
  monitor_network s = true →
  scr._poll_connections w (state_of r1) = (Raise e, s2, t2) →
  scr._poll_once w s = (Ret tt, s2, trace_of r1 ++ t2)
  ∧ pid_info s2 = pid_info (state_of r1)
  ∧ count about_process t2 = 0
  ∧ (∀ ws, running s = true → sleep w = Ret tt →
       while_running scr._poll_once (w :: ws) s
       = after (trace_of r1 ++ t2) (while_running scr._poll_once ws s2)).
Proof.
  intros r1 Hret Hn Hc.
  destruct (same_flags_main_poll_once w s) as [[_ Hflag] _].
  destruct (process_quiet_poll_connections w (state_of r1)) as [(Hpid & _ & _) Hq].
  fold r1 in Hflag. rewrite Hc in Hpid, Hq. cbn [fst snd] in Hpid, Hq.
  assert (main._poll_once w s = (Ret tt, state_of r1, trace_of r1)) as Hmain.
  { fold r1. destruct r1 as [[o s1] t1]. cbn in Hret. by rewrite Hret. }
  assert (scr._poll_once w s = (Ret tt, s2, trace_of r1 ++ t2)) as Hrun.
  { unfold scr._poll_once.
    erewrite bind_Ret by exact Hmain.
    erewrite bind_Ret by reflexivity.
    unfold state_of at 1. rewrite Hflag, Hn.
    unfold try_except. rewrite Hc. unfold except_Exception, after.
    cbn. by rewrite !app_nil_r. }
  split; [done|]. split; [done|]. split.
  - apply count_none. exact Hq.
  - intros ws Hr Hs. by apply while_running_step.
Qed.

Lemma C10_connection_failure_is_swallowed_witness :
  let r1 := @main._poll_once elements_iter world_broken_pipe monitor_alpha in
  let c := @scr._poll_connections elements_iter world_broken_pipe (state_of r1) in
  outcome_of c = Raise (OtherError "[Errno 32] Broken pipe")
  ∧ @scr._poll_once elements_iter world_broken_pipe monitor_alpha
    = (Ret tt, state_of c, trace_of r1 ++ trace_of c)
  ∧ pid_info (state_of c) = pid_info (state_of r1)
  ∧ count about_process (trace_of c) = 0.
Proof.
  split; [by vm_compute|].
  destruct (@C10_connection_failure_is_swallowed elements_iter world_broken_pipe
              monitor_alpha
              (state_of (@scr._poll_connections elements_iter world_broken_pipe
                           (state_of (@main._poll_once elements_iter
                                        world_broken_pipe monitor_alpha))))
              (OtherError "[Errno 32] Broken pipe")
              (trace_of (@scr._poll_connections elements_iter world_broken_pipe
                           (state_of (@main._poll_once elements_iter
                                        world_broken_pipe monitor_alpha)))))
    as (Hrun & Hpid & Hquiet & _).
  - by vm_compute.
  - reflexivity.
  - apply run_eta. by vm_compute.
  - split; [exact Hrun|]. split; [exact Hpid|exact Hquiet].
Defined.

(** * The loop and the keyboard

    A [KeyboardInterrupt] is not an [Exception]: raised inside the
    connection step, it passes the [except Exception] clauses of
    [_poll_connections] and [_poll_once], leaves the loop, and is handled by
    [start], which stops the monitor. The second world is never polled. *)
Example interrupt_stops_the_monitor :
  let r := @scr.start elements_iter world_alpha [world_interrupted; world_beta]
             world_alpha monitor_alpha in
  outcome_of r = Ret tt
  ∧ running (state_of r) = false
  ∧ trace_of r
    = [Logged INFO (Text "ProcessMonitor started");
       Printed (Text "ProcessMonitor started. Press Ctrl+C to stop.");
       Logged INFO (Text "ProcessMonitor stopping due to KeyboardInterrupt");
       Printed (Text "Stopping ProcessMonitor...");
       Logged INFO (Text "ProcessMonitor stopped by user")].
Proof. by vm_compute. Qed.

(** * Addresses

    [_addr_str] on the paths of UNIX sockets: a path of two characters,
    of one byte each or more, is unpacked like a pair. *)
Example addr_str_of_paths :
  scr._addr_str (psutil.Path "/run/user/1000/bus") = Some "/run/user/1000/bus"
  ∧ scr._addr_str (psutil.Path "") = None
  ∧ scr._addr_str (psutil.Path "ab") = Some "a:b"
  ∧ scr._addr_str (psutil.Path "é") = Some "é"
  ∧ scr._addr_str (psutil.Path "éa") = Some "é:a"
  ∧ scr._addr_str (psutil.Path "aé") = Some "a:é".
Proof. split_conjunction; by_evaluation. Qed.

(** * Further properties *)

(** ** What holds in every world *)

Lemma same_connection_state_preorder : PreOrder same_connection_state.
Proof.
  split.
  - by intros s.
  - intros s1 s2 s3 (?&?&?) (?&?&?). repeat split; congruence.
Qed.

Lemma keeps_well_keyed_preorder : PreOrder keeps_well_keyed.
Proof.
  split.
  - intros s Hs. exact Hs.
  - intros s1 s2 s3 H12 H23 H1. by apply H23, H12.
Qed.

#[local] Existing Instance same_connection_state_preorder.
#[local] Existing Instance keeps_well_keyed_preorder.

Lemma conn_record_key c : scr.conn_record c = key_record (scr._conn_key c).
Proof. done. Qed.

Lemma well_keyed_empty : well_keyed ∅.
Proof. intros k i Hk. by rewrite lookup_empty in Hk. Qed.

Lemma well_keyed_insert m c :
  well_keyed m → well_keyed (<[scr._conn_key c := scr.conn_record c]> m).
Proof.
  intros Hm k i. destruct (decide (k = scr._conn_key c)) as [->|Hne].
  - rewrite lookup_insert_eq. by intros [= <-].
  - rewrite lookup_insert_ne by done. apply Hm.
Qed.

Lemma well_keyed_delete m k : well_keyed m → well_keyed (delete k m).
Proof.
  intros Hm k' i. destruct (decide (k' = k)) as [->|Hne].
  - by rewrite lookup_delete_eq.
  - rewrite lookup_delete_ne by done. apply Hm.
Qed.

Lemma respects_cons {A} (R : relation ProcessMonitor) (Q : effect → Prop)
    (m : M A) :
  (∀ s, R s (m s).1.2 ∧ Forall Q (m s).2) → respects R Q m.
Proof. done. Qed.

(** Closes the side conditions left by [respects_step]. *)
Ltac respects_close :=
  try done;
  try (unfold keeps_well_keyed, same_connection_state, same_flags; cbn;
       by eauto using well_keyed_insert, well_keyed_delete, well_keyed_empty).

Section every_world.
Context `{SetIter}.

Lemma keeps_well_keyed_main_poll_once w :
  respects keeps_well_keyed (λ _, True) (main._poll_once w).
Proof.
  unfold main._poll_once, _log_start, _log_end, except_Exception.
  repeat respects_step; respects_close.
Qed.

Lemma keeps_well_keyed_collect_keys conns keys :
  respects keeps_well_keyed (λ _, True) (scr.collect_keys conns keys).
Proof.
  revert keys. induction conns as [|c conns IH]; intros keys; [by respects_step|].
  cbn [scr.collect_keys]. respects_step; [respects_step|].
  respects_step; [|apply IH].
  case_decide; repeat respects_step; respects_close.
Qed.

Lemma keeps_well_keyed_poll_connections w :
  respects keeps_well_keyed (λ _, True) (scr._poll_connections w).
Proof.
  unfold scr._poll_connections, scr._log_conn_start, scr._log_conn_end,
    except_Exception.
  respects_step; [repeat respects_step; respects_close|].
  respects_step; [apply keeps_well_keyed_collect_keys|].
  repeat respects_step; respects_close.
Qed.

Lemma keeps_well_keyed_scr_poll_once w :
  respects keeps_well_keyed (λ _, True) (scr._poll_once w).
Proof.
  unfold scr._poll_once, except_Exception.
  respects_step; [apply keeps_well_keyed_main_poll_once|].
  respects_step; [respects_step|].
  match goal with |- context [monitor_network ?self] =>
    destruct (monitor_network self); [|by respects_step]
  end.
  respects_step; [apply keeps_well_keyed_poll_connections|by respects_step..].
Qed.

Lemma keeps_well_keyed_seed_connections w :
  respects keeps_well_keyed (λ _, True) (scr._seed_connections w).
Proof.
  unfold scr._seed_connections, except_Exception.
  repeat respects_step; respects_close.
Qed.

Lemma keeps_well_keyed_seed_pids w :
  respects keeps_well_keyed (λ _, True) (seed_pids w).
Proof.
  unfold seed_pids, except_NoSuchProcess, except_Exception.
  repeat respects_step; respects_close.
Qed.

End every_world.

(** X2: every entry of [conn_info] holds the details of its own key:
    the status and the two addresses of the key, and its pid as text. This
    holds after [__init__] and is kept by every poll, in every world. *)
Theorem X2_conn_info_well_keyed `{SetIter} (w : world) :
  well_keyed (conn_info (state_of (scr.__init__ w)))
  ∧ (∀ s, well_keyed (conn_info s) →
       well_keyed (conn_info (state_of (scr._poll_connections w s)))
       ∧ well_keyed (conn_info (state_of (scr._poll_once w s)))).
Proof.
  split.
  - assert (respects keeps_well_keyed (λ _, True)
              (call (float_interval w);;
               call (basicConfig w);;
               seed_pids w;;
               self ← get_self;
               if monitor_network self
               then try_except (scr._seed_connections w)
                      (except_Exception (λ _, update_conn_info (λ _, ∅)))
               else mret tt)) as Hinit.
    { unfold except_Exception.
      respects_step; [respects_step|].
      respects_step; [respects_step|].
      respects_step; [apply keeps_well_keyed_seed_pids|].
      respects_step; [respects_step|].
      match goal with |- context [monitor_network ?self] =>
        destruct (monitor_network self); [|by respects_step]
      end.
      respects_step; [apply keeps_well_keyed_seed_connections|..];
        respects_step; respects_close. }
    apply Hinit, well_keyed_empty.
  - intros s Hs. split.
    + by apply (keeps_well_keyed_poll_connections w s).
    + by apply (keeps_well_keyed_scr_poll_once w s).
Qed.

Lemma X2_conn_info_well_keyed_witness :
  let s := state_of (@scr.__init__ world_alpha) in
  well_keyed (conn_info s)
  ∧ well_keyed (conn_info (state_of (@scr._poll_once elements_iter world_beta s))).
Proof.
  destruct (@X2_conn_info_well_keyed elements_iter world_alpha) as [Hinit _].
  destruct (@X2_conn_info_well_keyed elements_iter world_beta) as [_ Hpoll].
  split; [exact Hinit|]. exact (proj2 (Hpoll _ Hinit)).
Defined.

(** ** The constructor *)

Lemma never_raises_try_except {A} (body : M A) (h : Exception → M A) :
  (∀ e, never_raises (h e)) → never_raises (try_except body (except_Exception h)).
Proof.
  intros Hh s e. unfold try_except, except_Exception.
  destruct (body s) as [[[a|e'|] s1] t1]; cbn; try done.
  specialize (Hh e' s1 e). by destruct (h e' s1) as [[o s2] t2].
Qed.

Lemma never_raises_bind {A B} (m : M A) (f : A → M B) :
  never_raises m → (∀ a, never_raises (f a)) → never_raises (m ≫= f).
Proof.
  intros Hm Hf s e. unfold mbind, M_mbind, M_bind. specialize (Hm s).
  destruct (m s) as [[[a|e'|] s1] t1]; cbn in *; [|by destruct (Hm e')|done].
  specialize (Hf a s1 e). by destruct (f a s1) as [[o s2] t2].
Qed.

Lemma never_raises_seed_pids w : never_raises (seed_pids w).
Proof. apply never_raises_try_except. by intros e s e'. Qed.

(** What follows the configuration in the constructor of
    [src/scr/main.py]. *)
Lemma never_raises_seeding w :
  never_raises
    (seed_pids w;;
     self ← get_self;
     if monitor_network self
     then try_except (scr._seed_connections w)
            (except_Exception (λ _, update_conn_info (λ _, ∅)))
     else mret tt).
Proof.
  apply never_raises_bind; [apply never_raises_seed_pids|]. intros [].
  apply never_raises_bind; [done|]. intros self.
  destruct (monitor_network self); [|done].
  apply never_raises_try_except. by intros e' s e''.
Qed.

(** The two calls that open the constructor. *)
Lemma configuration_run {A} w (m : M A) s :
  (call (float_interval w);; call (basicConfig w);; m) s
  = match float_interval w with
    | Ret _ =>
        match basicConfig w with
        | Ret _ => m s
        | Raise e => (Raise e, s, [])
        | KeyboardInterrupt => (KeyboardInterrupt, s, [])
        end
    | Raise e => (Raise e, s, [])
    | KeyboardInterrupt => (KeyboardInterrupt, s, [])
    end.
Proof.
  unfold mbind, M_mbind, M_bind, call.
  destruct (float_interval w) as [[]|e1|]; [|done..].
  destruct (basicConfig w) as [[]|e2|]; [|done..].
  by destruct (m s) as [[o s'] t].
Qed.

Lemma configured_run {A} w (m : M A) s :
  configured w → (call (float_interval w);; call (basicConfig w);; m) s = m s.
Proof. intros [Hf Hb]. by rewrite configuration_run, Hf, Hb. Qed.

Lemma raises_only_from_configuration {A} w (m : M A) s e :
  never_raises m →
  ((call (float_interval w);; call (basicConfig w);; m) s).1.1 = Raise e
  ↔ float_interval w = Raise e
    ∨ (float_interval w = Ret tt ∧ basicConfig w = Raise e).
Proof.
  intros Hm. rewrite configuration_run.
  destruct (float_interval w) as [[]|e1|]; cbn.
  - destruct (basicConfig w) as [[]|e2|]; cbn.
    + split; [by intros ?%Hm|]. by intros [|[_ ?]].
    + split; [intros [= ->]; by right|]. by intros [|[_ [= ->]]].
    + split; [done|]. by intros [|[_ ?]].
  - split; [intros [= ->]; by left|]. by intros [[= ->]|[? _]].
  - split; [done|]. by intros [|[? _]].
Qed.

(** X3: the constructor absorbs every failure of [psutil]: a failing
    enumeration or a failing detail read ends in an empty dict, not in a
    failed construction. It raises an [Exception] exactly when one of the
    two calls outside its [try] blocks raises it: [float(interval)], or
    [logging.basicConfig], which opens the log file. *)
Theorem X3_init_raises_only_from_configuration (w : world) (e : Exception) :
  (outcome_of (main.__init__ w) = Raise e
   ↔ float_interval w = Raise e
     ∨ (float_interval w = Ret tt ∧ basicConfig w = Raise e))
  ∧ (outcome_of (scr.__init__ w) = Raise e
     ↔ float_interval w = Raise e
       ∨ (float_interval w = Ret tt ∧ basicConfig w = Raise e)).
Proof.
  split.
  - apply raises_only_from_configuration, never_raises_seed_pids.
  - apply raises_only_from_configuration, never_raises_seeding.
Qed.

Lemma X3_init_raises_only_from_configuration_witness :
  outcome_of (scr.__init__ world_no_log_file)
  = Raise (OtherError "[Errno 13] Permission denied: 'process_log.txt'")
  ∧ ∀ e, outcome_of (scr.__init__ world_denied) ≠ Raise e.
Proof.
  split.
  - apply (X3_init_raises_only_from_configuration world_no_log_file).
    right. by split.
  - intros e He.
    apply (X3_init_raises_only_from_configuration world_denied) in He.
    by destruct He as [?|[_ ?]].
Defined.

(** ** Seeding in a calm world *)

Lemma seed_one_calm w x s :
  calm w →
  try_except
    (name ← call (Process_name w x); update_pid_info (<[x := name]>))
    (except_NoSuchProcess (mret tt)) s
  = match Process_name w x with
    | Raise (OtherError text) => (Raise (OtherError text), s, [])
    | _ => (Ret tt, with_pid_info (seed_update w x) s, [])
    end.
Proof.
  intros Hw. pose proof (calm_name w Hw x) as Hn.
  unfold try_except, mbind, M_mbind, M_bind, call, update_pid_info,
    except_NoSuchProcess, seed_update.
  destruct (Process_name w x) as [name|[?|?]|]; try done; by destruct s.
Qed.

Lemma seed_loop_calm w l s :
  calm w → existsb (name_refused w) l = false →
  for_each l (λ pid,
    try_except
      (name ← call (Process_name w pid); update_pid_info (<[pid := name]>))
      (except_NoSuchProcess (mret tt))) s
  = (Ret tt, with_pid_info (λ m, foldl (λ m' x, seed_update w x m') m l) s, []).
Proof.
  intros Hw. revert s. induction l as [|x l IH]; intros s Hl.
  - by destruct s.
  - cbn [existsb] in Hl. apply orb_false_iff in Hl as [Hx Hl].
    cbn [for_each]. erewrite bind_Ret; last first.
    { rewrite seed_one_calm by done. unfold name_refused in Hx.
      by destruct (Process_name w x) as [?|[?|?]|]. }
    by rewrite IH.
Qed.

Lemma bind_Raise {A B} (m : M A) (f : A → M B) s e s1 t1 :
  m s = (Raise e, s1, t1) → (m ≫= f) s = (Raise e, s1, t1).
Proof. intros Hm. unfold mbind, M_mbind, M_bind. by rewrite Hm. Qed.

Lemma seed_loop_refused w l s :
  calm w → existsb (name_refused w) l = true →
  ∃ e m',
    for_each l (λ pid,
      try_except
        (name ← call (Process_name w pid); update_pid_info (<[pid := name]>))
        (except_NoSuchProcess (mret tt))) s
    = (Raise e, with_pid_info (λ _, m') s, []).
Proof.
  intros Hw. revert s. induction l as [|x l IH]; intros s Hl; [done|].
  cbn [existsb] in Hl. cbn [for_each].
  destruct (name_refused w x) eqn:Hx.
  - unfold name_refused in Hx.
    destruct (Process_name w x) as [?|[?|text]|] eqn:Hn; try done.
    exists (OtherError text), (pid_info s). apply bind_Raise. by destruct s.
  - cbn in Hl.
    destruct (IH (with_pid_info (seed_update w x) s) Hl) as (e & m' & Hrun).
    exists e, m'. erewrite bind_Ret; last first.
    { rewrite seed_one_calm by done. unfold name_refused in Hx.
      by destruct (Process_name w x) as [?|[?|?]|]. }
    by rewrite Hrun.
Qed.

Lemma seed_pids_calm w s :
  calm w →
  seed_pids w s = (Ret tt, with_pid_info (seeded_pid_info w) s, []).
Proof.
  intros Hw. pose proof (calm_pids w Hw) as Hp.
  unfold seed_pids, seeded_pid_info, try_except at 1.
  destruct (pids w) as [l|e|] eqn:Hl; [| |done].
  - erewrite bind_Ret by reflexivity. rewrite after_nil.
    destruct (existsb (name_refused w) l) eqn:Hr.
    + destruct (seed_loop_refused w l s Hw Hr) as (e & m' & ->).
      done.
    + by rewrite seed_loop_calm.
  - unfold mbind, M_mbind, M_bind, call, except_Exception, update_pid_info. cbn.
    by destruct s.
Qed.

Lemma seed_connections_calm w s :
  calm w →
  scr._seed_connections w s
  = (Ret tt, with_conn_info (seeded_conn_info w) s, []).
Proof.
  intros Hw. pose proof (calm_net_connections w Hw) as Hn.
  unfold scr._seed_connections, seeded_conn_info, current_conns.
  assert (∀ conns s',
            for_each conns (λ c,
              update_conn_info (<[scr._conn_key c := scr.conn_record c]>)) s'
            = (Ret tt,
               with_conn_info
                 (λ m, foldl (λ m' c, <[scr._conn_key c := scr.conn_record c]> m')
                         m conns) s', [])) as Hloop.
  { induction conns as [|c conns IH]; intros s'; [by destruct s'|].
    cbn [for_each]. erewrite bind_Ret by reflexivity. by rewrite IH. }
  destruct (net_connections w) as [conns|e|]; [| |done].
  - erewrite bind_Ret by reflexivity. by rewrite Hloop.
  - erewrite bind_Ret by reflexivity. by rewrite Hloop.
Qed.

Lemma main_init_calm w :
  calm w → configured w →
  main.__init__ w
  = (Ret tt,
     {| running := false; pid_info := seeded_pid_info w ∅;
        monitor_network := false; conn_info := ∅ |}, []).
Proof.
  intros Hw Hc. unfold main.__init__.
  by rewrite configured_run, seed_pids_calm.
Qed.

Lemma scr_init_calm w :
  calm w → configured w →
  scr.__init__ w
  = (Ret tt,
     {| running := false; pid_info := seeded_pid_info w ∅;
        monitor_network := true; conn_info := seeded_conn_info w ∅ |}, []).
Proof.
  intros Hw Hc. unfold scr.__init__. rewrite configured_run by done.
  erewrite bind_Ret by by apply seed_pids_calm.
  erewrite bind_Ret by reflexivity.
  cbn [monitor_network with_pid_info]. unfold try_except.
  by rewrite seed_connections_calm.
Qed.

Lemma lookup_seed_update w y m x :
  seed_update w y m !! x
  = if decide (x = y)
    then match Process_name w x with Ret name => Some name | _ => m !! x end
    else m !! x.
Proof.
  unfold seed_update. destruct (decide (x = y)) as [->|Hne].
  - destruct (Process_name w y) as [name|e|]; [apply lookup_insert_eq|done..].
  - destruct (Process_name w y) as [name|e|]; [by apply lookup_insert_ne|done..].
Qed.

Lemma lookup_foldl_seed_update w l m x :
  foldl (λ m' y, seed_update w y m') m l !! x
  = if decide (x ∈ l)
    then match Process_name w x with Ret name => Some name | _ => m !! x end
    else m !! x.
Proof.
  revert m. induction l as [|y l IH]; intros m.
  - by rewrite decide_False by apply not_elem_of_nil.
  - cbn [foldl]. rewrite IH, lookup_seed_update.
    destruct (decide (x = y)) as [->|Hne].
    + rewrite (decide_True (P := y ∈ y :: l)) by left.
      destruct (decide (y ∈ l)); by destruct (Process_name w y) as [?|?|].
    + destruct (decide (x ∈ l)) as [Hin|Hin].
      * by rewrite decide_True by by right.
      * rewrite decide_False; [done|].
        intros [?|?]%elem_of_cons; congruence.
Qed.

Lemma existsb_name_refused w l :
  existsb (name_refused w) l = true ↔ ∃ x, x ∈ l ∧ name_refused w x = true.
Proof.
  rewrite existsb_exists. split; intros (x & Hx & Hr); exists x; split; try done.
  - by apply list_elem_of_In.
  - by apply list_elem_of_In.
Qed.

Lemma lookup_seeded_conn_info w k :
  seeded_conn_info w ∅ !! k
  = if decide (k ∈ current_keys w) then Some (key_record k) else None.
Proof.
  unfold seeded_conn_info, current_keys.
  assert (∀ conns (m : gmap conn_key info),
            foldl (λ m' c, <[scr._conn_key c := scr.conn_record c]> m') m conns !! k
            = if decide (k ∈ (list_to_set (scr._conn_key <$> conns) : gset conn_key))
              then Some (key_record k) else m !! k) as Hloop.
  { induction conns as [|c conns IH] using rev_ind; intros m.
    - by rewrite decide_False by set_solver.
    - rewrite foldl_app, fmap_app, list_to_set_app_L. cbn [foldl fmap list_fmap].
      destruct (decide (k = scr._conn_key c)) as [->|Hne].
      + rewrite lookup_insert_eq, decide_True by set_solver.
        by rewrite conn_record_key.
      + rewrite lookup_insert_ne, IH by done.
        destruct (decide (k ∈ (list_to_set (scr._conn_key <$> conns)
                                : gset conn_key))) as [Hin|Hin].
        * by rewrite decide_True by set_solver.
        * by rewrite decide_False by set_solver. }
  by rewrite Hloop, lookup_empty.
Qed.

(** X4: in a calm world in which the constructor is configured (its
    interval converted, its log file opened), the enumeration answers and
    no name is refused, the constructor stores exactly the listed pids whose
    name could be read, each with the name read; a pid that has vanished
    between the listing and the read is left out. *)
Theorem X4_seeded_pids (w : world) (l : list Z) :
  calm w → configured w → pids w = Ret l →
  (∀ x, x ∈ l → name_refused w x = false) →
  ∀ x,
    pid_info (state_of (main.__init__ w)) !! x
    = (if decide (x ∈ l)
       then match Process_name w x with Ret name => Some name | _ => None end
       else None)
    ∧ pid_info (state_of (scr.__init__ w)) !! x
      = pid_info (state_of (main.__init__ w)) !! x.
Proof.
  intros Hw Hc Hl Hok x. rewrite main_init_calm, scr_init_calm by done.
  cbn [state_of fst snd pid_info]. split; [|done].
  unfold seeded_pid_info. rewrite Hl.
  destruct (existsb (name_refused w) l) eqn:Hr.
  - apply existsb_name_refused in Hr as (y & Hy & Hr). by rewrite Hok in Hr.
  - by rewrite lookup_foldl_seed_update, lookup_empty.
Qed.

Lemma X4_seeded_pids_witness :
  pid_info (state_of (main.__init__ world_alpha)) !! 100%Z = Some "alpha"
  ∧ pid_info (state_of (scr.__init__ world_alpha)) !! 100%Z = Some "alpha"
  ∧ pid_info (state_of (main.__init__ world_vanished)) !! 7%Z = None.
Proof.
  destruct (X4_seeded_pids world_alpha [100%Z] calm_world_alpha
              (conj eq_refl eq_refl) eq_refl (λ x _, eq_refl) 100%Z)
    as [Hmain Hscr].
  destruct (X4_seeded_pids world_vanished [7%Z] calm_world_vanished
              (conj eq_refl eq_refl) eq_refl (λ x _, eq_refl) 7%Z)
    as [Hgone _].
  split; [exact Hmain|]. split; [|exact Hgone].
  exact (eq_trans Hscr Hmain).
Defined.

Lemma calm_world_refused : calm world_refused.
Proof. split; try done. intros pid. cbn. by case_decide. Qed.

(** X5: in a calm world in which the constructor is configured, if the
    enumeration raises, or if the name of any listed pid raises an exception
    other than [NoSuchProcess], the constructor returns with an empty
    [pid_info]: the names stored before the failure are dropped. *)
Theorem X5_seeding_all_or_nothing (w : world) :
  calm w → configured w →
  (∃ e, pids w = Raise e)
  ∨ (∃ l x, pids w = Ret l ∧ x ∈ l ∧ name_refused w x = true) →
  outcome_of (main.__init__ w) = Ret tt
  ∧ pid_info (state_of (main.__init__ w)) = ∅
  ∧ outcome_of (scr.__init__ w) = Ret tt
  ∧ pid_info (state_of (scr.__init__ w)) = ∅.
Proof.
  intros Hw Hc Hfail. rewrite main_init_calm, scr_init_calm by done.
  cbn [state_of outcome_of fst snd pid_info].
  assert (seeded_pid_info w ∅ = ∅) as ->; [|done].
  unfold seeded_pid_info. destruct Hfail as [[e ->]|(l & x & -> & Hx & Hr)]; [done|].
  assert (existsb (name_refused w) l = true) as ->; [|done].
  apply existsb_name_refused. by exists x.
Qed.

Lemma X5_seeding_all_or_nothing_witness :
  pid_info (state_of (main.__init__ world_denied)) = ∅
  ∧ pid_info (state_of (scr.__init__ world_refused)) = ∅.
Proof.
  destruct (X5_seeding_all_or_nothing world_denied calm_world_denied
              (conj eq_refl eq_refl)) as (_ & Hmain & _).
  { left. by exists (OtherError "access denied"). }
  destruct (X5_seeding_all_or_nothing world_refused calm_world_refused
              (conj eq_refl eq_refl)) as (_ & _ & _ & Hscr).
  { right. exists [100%Z; 200%Z], 200%Z.
    split; [reflexivity|]. split; [|reflexivity].
    apply list_elem_of_In. cbn. tauto. }
  split; [exact Hmain|exact Hscr].
Defined.

(** X6: in a calm world in which it is configured, the constructor of
    [src/scr/main.py] returns a
    monitor that is not running, that watches the network, and whose
    [conn_info] holds exactly the keys of the enumerated connections (none
    when the enumeration raises), each with the details of its key. *)
Theorem X6_seeded_connections (w : world) :
  calm w → configured w →
  let s := state_of (scr.__init__ w) in
  outcome_of (scr.__init__ w) = Ret tt
  ∧ running s = false
  ∧ monitor_network s = true
  ∧ dom (conn_info s) = current_keys w
  ∧ (∀ k, conn_info s !! k
          = if decide (k ∈ current_keys w) then Some (key_record k) else None).
Proof.
  intros Hw Hc. cbv zeta. rewrite scr_init_calm by done.
  cbn [state_of outcome_of fst snd running monitor_network conn_info].
  split; [done|]. split; [done|]. split; [done|]. split.
  - apply set_eq. intros k. rewrite elem_of_dom, lookup_seeded_conn_info.
    destruct (decide (k ∈ current_keys w)); [by split|]. split; [by intros [??]|done].
  - apply lookup_seeded_conn_info.
Qed.

Lemma X6_seeded_connections_witness :
  let s := state_of (scr.__init__ world_alpha) in
  running s = false
  ∧ conn_info s !! scr._conn_key conn_established
    = Some (key_record (scr._conn_key conn_established))
  ∧ conn_info s !! scr._conn_key conn_close_wait = None.
Proof.
  destruct (X6_seeded_connections world_alpha calm_world_alpha
              (conj eq_refl eq_refl)) as (_ & Hrun & _ & _ & Hlook).
  split; [exact Hrun|]. split.
  - rewrite Hlook. apply decide_True. by_evaluation.
  - rewrite Hlook. apply decide_False. by_evaluation.
Defined.

(** ** One poll in a calm world, continued *)

Lemma about_key_about k e : about_process e = true → about_key k e = false.
Proof. destruct e as [[] []|[]]; done. Qed.

Lemma count_about_pid_start_effects w x y :
  y ≠ x → count (about_pid x) (start_effects w y) = 0.
Proof.
  intros Hne. unfold start_effects.
  destruct (fetch w y) as [[??]|[?|?]|]; cbn; [|done..].
  by rewrite bool_decide_eq_false_2.
Qed.

Lemma count_about_pid_end_effects m x y :
  y ≠ x → count (about_pid x) (end_effects m y) = 0.
Proof. intros Hne. unfold end_effects. cbn. by rewrite bool_decide_eq_false_2. Qed.

Lemma count_about_key_conn_end_effects m (k y : conn_key) :
  y ≠ k → count (about_key k) (conn_end_effects m y) = 0.
Proof.
  intros Hne. unfold conn_end_effects. cbn. by rewrite bool_decide_eq_false_2.
Qed.

Section unchanged.
Context `{SetIter}.

Lemma count_about_pid_unchanged w m x :
  x ∉ current_pids w ∖ dom m → x ∉ dom m ∖ current_pids w →
  count (about_pid x) (process_trace w m) = 0.
Proof.
  intros Hs He. unfold process_trace. rewrite !count_app.
  rewrite count_pids_diagnostic by done.
  rewrite (count_bind_elem_of _ (start_effects w)),
    (count_bind_elem_of _ (end_effects m)); [done| |].
  - intros y Hy%elem_of_set_iter. apply count_about_pid_end_effects. by intros ->.
  - intros y Hy%elem_of_set_iter. apply count_about_pid_start_effects. by intros ->.
Qed.

Lemma count_about_key_unchanged w m k :
  k ∉ dom m ∖ current_keys w →
  count (about_key k) (conn_trace w m) = 0.
Proof.
  intros He. unfold conn_trace. rewrite count_app.
  rewrite count_conns_diagnostic by done.
  rewrite (count_bind_elem_of _ (conn_end_effects m)); [done|].
  intros y Hy%elem_of_set_iter. apply count_about_key_conn_end_effects.
  by intros ->.
Qed.

Lemma elem_of_process_trace_started w m e x name created :
  e ∈ process_trace w m → message e = ProcessStarted x name created →
  x ∈ current_pids w ∖ dom m ∧ fetch w x = Ret (name, created).
Proof.
  unfold process_trace. rewrite !elem_of_app, !list_elem_of_bind.
  intros [He|[(y & He & Hy)|(y & He & Hy)]] Hm.
  - unfold pids_diagnostic in He.
    destruct (pids w); [by apply elem_of_nil in He| |by apply elem_of_nil in He].
    apply list_elem_of_singleton in He as ->. done.
  - apply elem_of_set_iter in Hy. unfold start_effects in He.
    destruct (fetch w y) as [[n c]|[?|?]|] eqn:Hf;
      repeat (apply elem_of_cons in He as [->|He];
              [cbn in Hm; try done; by injection Hm as <- <- <-|]);
      by apply elem_of_nil in He.
  - unfold end_effects in He.
    repeat (apply elem_of_cons in He as [->|He]; [done|]).
    by apply elem_of_nil in He.
Qed.

End unchanged.

(** X7: in a calm world, an identity that is both in the state and in the
    snapshot produces no lifecycle message during the poll, and its cached
    details are kept, whatever [psutil] now answers about it: a pid that
    was reused by another process keeps the name of the first one. *)
Theorem X7_no_phantom_events `{SetIter} (w : world) (s : ProcessMonitor) :
  calm w →
  (∀ _poll_once x, process_watcher _poll_once →
     x ∈ dom (pid_info s) → x ∈ current_pids w →
     let r := _poll_once w s in
     count (about_pid x) (trace_of r) = 0
     ∧ pid_info (state_of r) !! x = pid_info s !! x)
  ∧ (∀ k, monitor_network s = true →
     k ∈ dom (conn_info s) → k ∈ current_keys w →
     let r := scr._poll_once w s in
     count (about_key k) (trace_of r) = 0
     ∧ conn_info (state_of r) !! k = conn_info s !! k).
Proof.
  intros Hw. split.
  - intros poll x Hpoll Hx Hc.
    destruct (process_watcher_calm poll w s Hpoll Hw) as (s' & t & -> & Hs' & _ & Ht).
    cbn [trace_of state_of fst snd]. rewrite Hs'. split.
    + rewrite count_app, count_about_pid_unchanged, Ht;
        [done|apply about_pid_about|set_solver..].
    + rewrite lookup_pid_info_after, decide_True by done.
      apply elem_of_dom in Hx as [name Hx]. by rewrite Hx.
  - intros k Hn Hk Hc. rewrite scr_poll_once_calm by done.
    cbn [trace_of state_of fst snd conn_info with_conn_info with_pid_info]. split.
    + rewrite count_app, count_about_key_unchanged, count_conn_process_trace;
        [done|apply about_key_about|by intros []|set_solver].
    + apply elem_of_dom in Hk as [i Hi]. rewrite Hi.
      by apply lookup_conn_info_after_Some.
Qed.

Lemma X7_no_phantom_events_witness :
  let r := @scr._poll_once elements_iter world_alpha monitor_alpha in
  count (about_pid 100) (trace_of r) = 0
  ∧ pid_info (state_of r) !! 100%Z = Some "alpha"
  ∧ count (about_key (scr._conn_key conn_established)) (trace_of r) = 0.
Proof.
  destruct (@X7_no_phantom_events elements_iter world_alpha monitor_alpha
              calm_world_alpha) as [Hp Hc].
  destruct (Hp (@scr._poll_once elements_iter) 100%Z (or_intror eq_refl))
    as [Hquiet Hkept]; [by_evaluation..|].
  destruct (Hc (scr._conn_key conn_established) eq_refl) as [Hconn _];
    [by_evaluation..|].
  split; [exact Hquiet|]. split; [exact Hkept|exact Hconn].
Defined.

(** X8: in a calm world no lifecycle message is emitted without a change:
    a "Process Started" message is about a pid of the snapshot that the
    state did not hold and carries the name and creation time just read; a
    "Process Ended" or "Connection Ended" message is about an identity that
    the state held and the snapshot does not. *)
Theorem X8_events_are_changes `{SetIter} (w : world) (s : ProcessMonitor) :
  calm w →
  (∀ _poll_once e, process_watcher _poll_once →
     e ∈ trace_of (_poll_once w s) →
     (∀ x name created, message e = ProcessStarted x name created →
        x ∈ current_pids w ∧ (x ∉ dom (pid_info s))
        ∧ fetch w x = Ret (name, created))
     ∧ (∀ x name, message e = ProcessEnded x name →
        x ∈ dom (pid_info s) ∧ x ∉ current_pids w))
  ∧ (∀ e k l r st p, monitor_network s = true →
     e ∈ trace_of (scr._poll_once w s) →
     message e = ConnectionEnded k l r st p →
     k ∈ dom (conn_info s) ∧ k ∉ current_keys w).
Proof.
  intros Hw. split.
  - intros poll e Hpoll.
    destruct (process_watcher_calm poll w s Hpoll Hw) as (s' & t & -> & _ & _ & Ht).
    cbn [trace_of snd]. intros [He|He]%elem_of_app.
    + split.
      * intros x name created Hm.
        destruct (elem_of_process_trace_started _ _ _ _ _ _ He Hm) as [Hx Hf].
        apply elem_of_difference in Hx as [??]. done.
      * intros x name Hm.
        destruct (elem_of_process_trace_ended _ _ _ _ _ He Hm) as [Hx _].
        by apply elem_of_difference in Hx as [??].
    + apply (count_zero_elem_of about_process) in He; [|by apply Ht].
      split; intros; destruct e as [lv m|m]; cbn in *; by subst m.
  - intros e k l r st p Hn. rewrite scr_poll_once_calm by done.
    cbn [trace_of snd]. intros [He|He]%elem_of_app Hm.
    + apply (count_zero_elem_of about_connection) in He.
      * destruct e as [lv m|m]; cbn in *; by subst m.
      * apply count_conn_process_trace; [|done].
        intros e'. by destruct e' as [[] []|[]].
    + destruct (elem_of_conn_trace_ended _ _ _ _ _ _ _ _ He Hm) as (Hk & _).
      by apply elem_of_difference in Hk as [??].
Qed.

Lemma X8_events_are_changes_witness :
  200%Z ∈ current_pids world_beta
  ∧ (200%Z ∉ dom (pid_info monitor_alpha))
  ∧ 100%Z ∈ dom (pid_info monitor_alpha)
  ∧ (100%Z ∉ current_pids world_beta).
Proof.
  destruct (@X8_events_are_changes elements_iter world_beta monitor_alpha
              calm_world_beta) as [Hp _].
  destruct (Hp (@main._poll_once elements_iter)
              (Logged INFO (ProcessStarted 200 "beta" "2024-01-01 00:00:01"))
              (or_introl eq_refl)) as [Hstarted _].
  { apply list_elem_of_In. vm_compute. tauto. }
  destruct (Hp (@main._poll_once elements_iter)
              (Logged INFO (ProcessEnded 100 (Some "alpha")))
              (or_introl eq_refl)) as [_ Hended].
  { apply list_elem_of_In. vm_compute. tauto. }
  destruct (Hstarted 200%Z "beta" "2024-01-01 00:00:01" eq_refl) as (Hc & Hd & _).
  destruct (Hended 100%Z (Some "alpha") eq_refl) as [Hd' Hc'].
  split; [exact Hc|]. split; [exact Hd|]. split; [exact Hd'|exact Hc'].
Defined.

(** ** The two watchers in every world *)

Section respects_more.
Context (R : relation ProcessMonitor) (Q : effect → Prop) `{!PreOrder R}.

Lemma respects_set_running b :
  (∀ s, R s (with_running b s)) → respects R Q (set_running b).
Proof. intros Hr s. by split. Qed.

Lemma respects_try_except_KeyboardInterrupt {A} (body handler : M A) :
  respects R Q body → respects R Q handler →
  respects R Q (try_except_KeyboardInterrupt body handler).
Proof.
  intros Hm Hh s. specialize (Hm s). unfold try_except_KeyboardInterrupt.
  destruct (body s) as [[[a|e|] s1] t1]; try done.
  specialize (Hh s1). destruct (handler s1) as [[o s2] t2].
  cbn in *. destruct Hm, Hh. split; [by etrans|by apply Forall_app].
Qed.

Lemma respects_while_running _poll_once ws :
  (∀ w, respects R Q (_poll_once w)) →
  respects R Q (while_running _poll_once ws).
Proof.
  intros Hp. induction ws as [|w ws IH]; [by respects_step|].
  cbn [while_running]. respects_step; [respects_step|].
  match goal with |- context [running ?self] =>
    destruct (running self); [|by respects_step]
  end.
  respects_step; [apply Hp|]. respects_step; [respects_step|apply IH].
Qed.

End respects_more.

Section every_world_more.
Context `{SetIter}.

(** The process watcher leaves [conn_info] and the flags alone and emits
    no connection message. *)
Lemma connection_quiet_main_poll_once w :
  respects same_connection_state (λ e, about_connection e = false)
    (main._poll_once w).
Proof.
  unfold main._poll_once, _log_start, _log_end, except_Exception.
  repeat respects_step; respects_close.
Qed.

(** [created] of [_poll_connections] is empty: the keys of the snapshot
    are in [conn_info] when [previous_keys] is read. *)
Lemma poll_connections_after_listing w conns s :
  (current_keys ← scr.collect_keys conns ∅;
   self ← get_self;
   let previous_keys : gset conn_key := dom (conn_info self) in
   let created := current_keys ∖ previous_keys in
   let ended := previous_keys ∖ current_keys in
   for_each (set_iter created) (scr._log_conn_start w);;
   for_each (set_iter ended) (scr._log_conn_end w)) s
  = for_each
      (set_iter (dom (conn_info s) ∖ list_to_set (scr._conn_key <$> conns)))
      (scr._log_conn_end w)
      (with_conn_info (λ m, foldl store_new m conns) s).
Proof.
  erewrite bind_Ret by apply collect_keys_run.
  erewrite bind_Ret by reflexivity.
  cbn [conn_info with_conn_info].
  rewrite (right_id_L ∅ (∪)), dom_foldl_store_new, !after_nil.
  replace (list_to_set (scr._conn_key <$> conns)
             ∖ (dom (conn_info s) ∪ list_to_set (scr._conn_key <$> conns)))
    with (∅ : gset conn_key) by set_solver.
  replace ((dom (conn_info s) ∪ list_to_set (scr._conn_key <$> conns))
             ∖ list_to_set (scr._conn_key <$> conns))
    with (dom (conn_info s) ∖ list_to_set (scr._conn_key <$> conns) : gset conn_key)
    by set_solver.
  rewrite set_iter_empty. cbn [for_each].
  erewrite bind_Ret by reflexivity. by rewrite after_nil.
Qed.

Lemma no_connection_start_poll_connections w :
  respects (λ _ _, True) (λ e, connection_started e = false)
    (scr._poll_connections w).
Proof.
  unfold scr._poll_connections.
  respects_step; [unfold except_Exception; by repeat respects_step|].
  intros s. rewrite poll_connections_after_listing. split; [done|].
  apply (respects_for_each (λ _ _, True) (λ e, connection_started e = false)).
  intros k. unfold scr._log_conn_end. by repeat respects_step.
Qed.

Lemma no_connection_start_main_poll_once w :
  respects (λ _ _, True) (λ e, connection_started e = false)
    (main._poll_once w).
Proof.
  unfold main._poll_once, _log_start, _log_end, except_Exception.
  by repeat respects_step.
Qed.

Lemma no_connection_start_scr_poll_once w :
  respects (λ _ _, True) (λ e, connection_started e = false)
    (scr._poll_once w).
Proof.
  unfold scr._poll_once, except_Exception.
  respects_step; [apply no_connection_start_main_poll_once|].
  respects_step; [respects_step|].
  match goal with |- context [monitor_network ?self] =>
    destruct (monitor_network self); [|by respects_step]
  end.
  respects_step; [apply no_connection_start_poll_connections|by respects_step..].
Qed.

Lemma no_connection_start_stop w :
  respects (λ _ _, True) (λ e, connection_started e = false) (stop w).
Proof.
  unfold stop. respects_step; [respects_step|].
  match goal with |- context [running ?self] =>
    destruct (running self); [|by respects_step]
  end.
  respects_step; [by apply respects_set_running|].
  by repeat respects_step.
Qed.

Lemma same_flags_poll_connections w :
  respects same_flags (λ _, True) (scr._poll_connections w).
Proof.
  intros s. destruct (process_quiet_poll_connections w s) as [(_ & ? & ?) _].
  split; [done|]. apply Forall_forall. done.
Qed.

Lemma same_flags_scr_poll_once w :
  respects same_flags (λ _, True) (scr._poll_once w).
Proof.
  unfold scr._poll_once, except_Exception.
  respects_step; [apply same_flags_main_poll_once|].
  respects_step; [respects_step|].
  match goal with |- context [monitor_network ?self] =>
    destruct (monitor_network self); [|by respects_step]
  end.
  respects_step; [apply same_flags_poll_connections|by respects_step..].
Qed.

End every_world_more.

(** X9: [_log_conn_start] is never reached. No poll of the connection
    watcher, no cycle and no run of [start] of [src/scr/main.py] logs or
    prints a "Connection Started" message, in any world and from any
    state. *)
Theorem X9_connection_start_is_never_reported `{SetIter}
    (w : world) (ws : list world) (w_stop : world) (s : ProcessMonitor) :
  count connection_started (trace_of (scr._poll_connections w s)) = 0
  ∧ count connection_started (trace_of (scr._poll_once w s)) = 0
  ∧ count connection_started (trace_of (scr.start w ws w_stop s)) = 0.
Proof.
  split; [|split]; apply count_none.
  - apply no_connection_start_poll_connections.
  - apply no_connection_start_scr_poll_once.
  - assert (respects (λ _ _, True) (λ e, connection_started e = false)
              (scr.start w ws w_stop)) as Hstart; [|apply Hstart].
    unfold scr.start, start_with.
    respects_step; [by apply respects_set_running|].
    respects_step; [by respects_step|].
    respects_step; [by respects_step|].
    apply respects_try_except_KeyboardInterrupt; [by apply _|..].
    + apply respects_while_running; [by apply _|].
      apply no_connection_start_scr_poll_once.
    + respects_step; [by respects_step|]. apply no_connection_start_stop.
Qed.

(** X10: the two watchers do not interfere, in any world. The process
    part of a cycle leaves [conn_info] as it is and emits no connection
    message; [_poll_connections] leaves [pid_info] as it is and emits no
    process message; and a whole cycle changes neither [running] nor
    [monitor_network]. *)
Theorem X10_watchers_do_not_interfere `{SetIter} (w : world) (s : ProcessMonitor) :
  let p := main._poll_once w s in
  let c := scr._poll_connections w s in
  let r := scr._poll_once w s in
  conn_info (state_of p) = conn_info s
  ∧ count about_connection (trace_of p) = 0
  ∧ pid_info (state_of c) = pid_info s
  ∧ count about_process (trace_of c) = 0
  ∧ running (state_of r) = running s
  ∧ monitor_network (state_of r) = monitor_network s.
Proof.
  cbv zeta.
  destruct (connection_quiet_main_poll_once w s) as [(Hc & _) Hq].
  destruct (process_quiet_poll_connections w s) as [(Hp & _) Hq'].
  destruct (same_flags_scr_poll_once w s) as [[Hr Hn] _].
  split; [exact Hc|]. split; [by apply count_none|].
  split; [exact Hp|]. split; [by apply count_none|]. done.
Qed.

(** ** Standard output and the log *)

Lemma omap_bind_list {A B C} (f : B → option C) (g : A → list B) l :
  omap f (l ≫= g) = l ≫= (λ x, omap f (g x)).
Proof.
  induction l as [|x l IH]; [done|].
  by rewrite !bind_cons, omap_app, IH.
Qed.

Lemma stdout_start_effects w x :
  stdout (start_effects w x) = info_log (start_effects w x).
Proof.
  unfold start_effects. by destruct (fetch w x) as [[??]|[?|?]|].
Qed.

Section mirror.
Context `{SetIter}.

Lemma stdout_process_trace w m :
  stdout (process_trace w m) = info_log (process_trace w m).
Proof.
  unfold process_trace, stdout, info_log.
  rewrite !omap_app, !omap_bind_list. f_equal; [|f_equal].
  - unfold pids_diagnostic. by destruct (pids w).
  - apply bind_ext_elem_of. intros x _. apply stdout_start_effects.
Qed.

Lemma stdout_conn_trace w m :
  stdout (conn_trace w m) = info_log (conn_trace w m).
Proof.
  unfold conn_trace, stdout, info_log.
  rewrite !omap_app, !omap_bind_list. f_equal.
  unfold conns_diagnostic. by destruct (net_connections w).
Qed.

End mirror.

(** X11: in a calm world the lines that a cycle prints are the records it
    writes to the log at level [INFO], in the same order: every lifecycle
    message is logged and printed, and a diagnostic is never printed. *)
Theorem X11_stdout_mirrors_the_log `{SetIter} (w : world) (s : ProcessMonitor) :
  calm w →
  stdout (trace_of (main._poll_once w s)) = info_log (trace_of (main._poll_once w s))
  ∧ stdout (trace_of (scr._poll_once w s)) = info_log (trace_of (scr._poll_once w s)).
Proof.
  intros Hw. split.
  - rewrite main_poll_once_calm by done. apply stdout_process_trace.
  - destruct (monitor_network s) eqn:Hn.
    + rewrite scr_poll_once_calm by done. cbn [trace_of snd].
      unfold stdout, info_log. rewrite !omap_app.
      f_equal; [apply stdout_process_trace|apply stdout_conn_trace].
    + rewrite scr_poll_once_calm_off by done. apply stdout_process_trace.
Qed.

Lemma X11_stdout_mirrors_the_log_witness :
  let t := trace_of (@scr._poll_once elements_iter world_beta monitor_alpha) in
  stdout t = info_log t.
Proof.
  exact (proj2 (@X11_stdout_mirrors_the_log elements_iter world_beta monitor_alpha
                  calm_world_beta)).
Defined.

(** ** What a "Connection Ended" line says *)

(** X12: in a calm world, when [conn_info] is well keyed (as it is after
    [__init__] and after every poll), a "Connection Ended" message reports
    the addresses, the status and the pid of its own key, so the line is
    determined by the key alone. *)
Theorem X12_connection_end_reports_its_key `{SetIter} (w : world)
    (s : ProcessMonitor) (e : effect) (f t : Z) (l r : option string)
    (st : string) (p : option Z) (l' r' st' p' : option string) :
  calm w → monitor_network s = true → well_keyed (conn_info s) →
  e ∈ trace_of (scr._poll_once w s) →
  message e = ConnectionEnded (f, t, l, r, st, p) l' r' st' p' →
  l' = l ∧ r' = r ∧ st' = Some st ∧ p' = Some (scr.str_pid p)
  ∧ render (message e)
    = "Connection Ended - Local: " +:+ str_opt l +:+ ", Remote: " +:+ str_opt r
        +:+ ", Status: " +:+ st +:+ ", PID: " +:+ scr.str_pid p.
Proof.
  intros Hw Hn Hs. rewrite scr_poll_once_calm by done. cbn [trace_of snd].
  intros [He|He]%elem_of_app Hm.
  - apply (count_zero_elem_of about_connection) in He.
    + destruct e as [lv m|m]; cbn in *; by subst m.
    + apply count_conn_process_trace; [|done].
      intros e'. by destruct e' as [[] []|[]].
  - destruct (elem_of_conn_trace_ended _ _ _ _ _ _ _ _ He Hm)
      as (Hk & -> & -> & -> & ->).
    apply elem_of_difference in Hk as [[i Hi]%elem_of_dom _].
    rewrite Hm, Hi. rewrite (Hs _ _ Hi). done.
Qed.

Lemma X12_connection_end_reports_its_key_witness :
  render (ConnectionEnded (scr._conn_key conn_established)
            (Some "10.0.0.1:5000") (Some "10.0.0.2:80")
            (Some "ESTABLISHED") (Some "42"))
  = "Connection Ended - Local: 10.0.0.1:5000, Remote: 10.0.0.2:80, Status: ESTABLISHED, PID: 42".
Proof.
  refine (proj2 (proj2 (proj2 (proj2
    (@X12_connection_end_reports_its_key elements_iter world_beta monitor_alpha
       (Logged INFO
          (ConnectionEnded (scr._conn_key conn_established)
             (Some "10.0.0.1:5000") (Some "10.0.0.2:80")
             (Some "ESTABLISHED") (Some "42")))
       2 1 (Some "10.0.0.1:5000") (Some "10.0.0.2:80") "ESTABLISHED" (Some 42%Z)
       (Some "10.0.0.1:5000") (Some "10.0.0.2:80")
       (Some "ESTABLISHED") (Some "42")
       calm_world_beta eq_refl _ _ eq_refl))))).
  - apply (well_keyed_insert ∅ conn_established), well_keyed_empty.
  - apply list_elem_of_In. vm_compute. tauto.
Defined.

(** ** [start] and [stop] *)

Section loop.
Context `{SetIter}.

Lemma same_flags_process_watcher _poll_once w :
  process_watcher _poll_once → respects same_flags (λ _, True) (_poll_once w).
Proof.
  intros [->| ->]; [apply same_flags_main_poll_once|apply same_flags_scr_poll_once].
Qed.

(** The loop never changes [running]: it is left by an exception, by an
    interrupt, or never. *)
Lemma running_while_running _poll_once ws s :
  process_watcher _poll_once →
  running (while_running _poll_once ws s).1.2 = running s.
Proof.
  intros Hp.
  destruct (respects_while_running same_flags (λ _, True) _poll_once ws
              (λ w, same_flags_process_watcher _poll_once w Hp) s) as [[Hr _] _].
  exact Hr.
Qed.

Lemma start_with_run _poll_once w_start ws w_stop s :
  print w_start "ProcessMonitor started. Press Ctrl+C to stop." = Ret tt →
  start_with _poll_once w_start ws w_stop s
  = after [Logged INFO (Text "ProcessMonitor started");
           Printed (Text "ProcessMonitor started. Press Ctrl+C to stop.")]
      (try_except_KeyboardInterrupt
         (while_running _poll_once ws)
         (logging INFO (Text "ProcessMonitor stopping due to KeyboardInterrupt");;
          stop w_stop)
         (with_running true s)).
Proof.
  intros Hprint. unfold start_with.
  erewrite bind_Ret by reflexivity. rewrite after_nil.
  erewrite bind_Ret by reflexivity.
  erewrite bind_Ret by (unfold do_print; cbn [render]; by rewrite Hprint).
  unfold after. cbn [fst snd]. done.
Qed.

End loop.

(** X13: Ctrl+C stops the monitor gracefully. When the loop of [start]
    is left by a [KeyboardInterrupt], wherever in a cycle it was raised,
    [start] returns normally with [running] set to [False], having logged
    the interrupt, printed the stop line and logged the stop, in this
    order, after everything the loop had emitted. *)
Theorem X13_interrupt_stops_the_monitor `{SetIter} (_poll_once : world → M unit)
    (w_start : world) (ws : list world) (w_stop : world)
    (s s' : ProcessMonitor) (t : list effect) :
  process_watcher _poll_once →
  print w_start "ProcessMonitor started. Press Ctrl+C to stop." = Ret tt →
  print w_stop "Stopping ProcessMonitor..." = Ret tt →
  while_running _poll_once ws (with_running true s) = (KeyboardInterrupt, s', t) →
  start_with _poll_once w_start ws w_stop s
  = (Ret tt, with_running false s',
     [Logged INFO (Text "ProcessMonitor started");
      Printed (Text "ProcessMonitor started. Press Ctrl+C to stop.")]
     ++ t
     ++ [Logged INFO (Text "ProcessMonitor stopping due to KeyboardInterrupt");
         Printed (Text "Stopping ProcessMonitor...");
         Logged INFO (Text "ProcessMonitor stopped by user")]).
Proof.
  intros Hp Hstart Hstop Hloop. rewrite start_with_run by done.
  pose proof (running_while_running _poll_once ws (with_running true s) Hp) as Hr.
  rewrite Hloop in Hr. cbn in Hr.
  unfold try_except_KeyboardInterrupt. rewrite Hloop.
  erewrite bind_Ret by reflexivity.
  unfold stop. erewrite bind_Ret by reflexivity. rewrite Hr.
  erewrite bind_Ret by reflexivity.
  erewrite bind_Ret by (unfold do_print; cbn [render]; by rewrite Hstop).
  done.
Qed.

Lemma X13_interrupt_stops_the_monitor_witness :
  let r := @scr.start elements_iter world_alpha [world_interrupted; world_beta]
             world_alpha monitor_alpha in
  outcome_of r = Ret tt ∧ running (state_of r) = false.
Proof.
  pose proof (@X13_interrupt_stops_the_monitor elements_iter
                (@scr._poll_once elements_iter)
                world_alpha [world_interrupted; world_beta] world_alpha
                monitor_alpha
                (state_of (while_running (@scr._poll_once elements_iter)
                             [world_interrupted; world_beta]
                             (with_running true monitor_alpha)))
                (trace_of (while_running (@scr._poll_once elements_iter)
                             [world_interrupted; world_beta]
                             (with_running true monitor_alpha)))
                (or_intror eq_refl) eq_refl eq_refl) as Hstart.
  unfold scr.start. cbv zeta. rewrite Hstart; [done|].
  apply run_eta. by_evaluation.
Defined.

(** X14: [start] handles the interrupt only. When the loop is left by an
    [Exception] (a failing [print] in [_log_end], a failing [sleep]),
    [start] raises it to its caller, logs no stop, and leaves [running] set
    to [True]. *)
Theorem X14_exception_leaves_start `{SetIter} (_poll_once : world → M unit)
    (w_start : world) (ws : list world) (w_stop : world)
    (s s' : ProcessMonitor) (t : list effect) (e : Exception) :
  process_watcher _poll_once →
  print w_start "ProcessMonitor started. Press Ctrl+C to stop." = Ret tt →
  while_running _poll_once ws (with_running true s) = (Raise e, s', t) →
  start_with _poll_once w_start ws w_stop s
  = (Raise e, s',
     [Logged INFO (Text "ProcessMonitor started");
      Printed (Text "ProcessMonitor started. Press Ctrl+C to stop.")] ++ t)
  ∧ running s' = true.
Proof.
  intros Hp Hstart Hloop. rewrite start_with_run by done.
  pose proof (running_while_running _poll_once ws (with_running true s) Hp) as Hr.
  rewrite Hloop in Hr. cbn in Hr.
  unfold try_except_KeyboardInterrupt. by rewrite Hloop.
Qed.

Lemma X14_exception_leaves_start_witness :
  let r := @main.start elements_iter world_alpha [world_broken_pipe] world_alpha
             (state_of (main.__init__ world_beta)) in
  outcome_of r = Raise (OtherError "[Errno 32] Broken pipe")
  ∧ running (state_of r) = true.
Proof.
  destruct (@X14_exception_leaves_start elements_iter
              (@main._poll_once elements_iter)
              world_alpha [world_broken_pipe] world_alpha
              (state_of (main.__init__ world_beta))
              (state_of (while_running (@main._poll_once elements_iter)
                           [world_broken_pipe]
                           (with_running true (state_of (main.__init__ world_beta)))))
              (trace_of (while_running (@main._poll_once elements_iter)
                           [world_broken_pipe]
                           (with_running true (state_of (main.__init__ world_beta)))))
              (OtherError "[Errno 32] Broken pipe")
              (or_introl eq_refl) eq_refl) as [Hstart Hrun].
  - apply run_eta. by_evaluation.
  - unfold main.start. cbv zeta. rewrite Hstart. by split.
Defined.

(** ** A closed standard output *)

Lemma list_pids_run w s :
  pids w ≠ KeyboardInterrupt →
  try_except (l ← call (pids w); mret (list_to_set l : gset Z))
    (except_Exception (λ e,
       logging ERROR (Text ("Failed to list PIDs: " +:+ str_exn e));;
       mret ∅)) s
  = (Ret (current_pids w), s, pids_diagnostic w).
Proof.
  intros Hp. unfold try_except, current_pids, pids_diagnostic.
  unfold mbind, M_mbind, M_bind, call, mret, M_mret, M_ret, except_Exception, logging.
  by destruct (pids w) as [l|e|].
Qed.

Lemma _log_start_closed w text pid s :
  stdout_closed w text →
  _log_start w pid s = (Ret tt, s, closed_start_effects w text pid).
Proof.
  intros Hw. unfold _log_start, try_except, closed_start_effects, fetch.
  unfold mbind, M_mbind, M_bind, call, logging, do_print, update_pid_info.
  pose proof (closed_name w text Hw pid) as Hn.
  pose proof (closed_create_time w text Hw pid) as Hc.
  destruct (Process_name w pid) as [name|[?|?]|]; try done.
  destruct (Process_create_time w pid) as [created|[?|?]|]; try done.
  simpl. by rewrite (closed_print w text Hw).
Qed.

Lemma for_each_log_start_closed w text l s :
  stdout_closed w text →
  for_each l (_log_start w) s = (Ret tt, s, l ≫= closed_start_effects w text).
Proof.
  intros Hw. induction l as [|x l IH]; [done|].
  cbn [for_each]. erewrite bind_Ret by by apply (_log_start_closed w text).
  by rewrite IH.
Qed.

Lemma _log_end_closed w text pid s :
  stdout_closed w text →
  _log_end w pid s
  = (Raise (OtherError text), s, closed_end_effects (pid_info s) [pid]).
Proof.
  intros Hw. unfold _log_end, closed_end_effects.
  unfold mbind, M_mbind, M_bind, get_self, logging, do_print, update_pid_info.
  simpl. by rewrite (closed_print w text Hw).
Qed.

Lemma for_each_log_end_closed w text l s :
  stdout_closed w text →
  for_each l (_log_end w) s
  = (match l with [] => Ret tt | _ :: _ => Raise (OtherError text) end,
     s, closed_end_effects (pid_info s) l).
Proof.
  intros Hw. destruct l as [|x l]; [done|].
  cbn [for_each]. unfold mbind, M_mbind, M_bind.
  by rewrite (_log_end_closed w text x s Hw).
Qed.

Lemma main_poll_once_closed `{SetIter} w text s :
  stdout_closed w text →
  main._poll_once w s
  = (match set_iter (dom (pid_info s) ∖ current_pids w) with
     | [] => Ret tt
     | _ :: _ => Raise (OtherError text)
     end,
     s,
     pids_diagnostic w
     ++ (set_iter (current_pids w ∖ dom (pid_info s)) ≫= closed_start_effects w text)
     ++ closed_end_effects (pid_info s) (set_iter (dom (pid_info s) ∖ current_pids w))).
Proof.
  intros Hw. unfold main._poll_once.
  erewrite bind_Ret by (apply list_pids_run, (closed_pids w text Hw)).
  erewrite bind_Ret by reflexivity.
  erewrite bind_Ret by by apply (for_each_log_start_closed w text).
  rewrite (for_each_log_end_closed w text) by done.
  unfold after. cbn [fst snd app]. done.
Qed.

Lemma set_iter_nil `{SetIter} `{Countable K} (X : gset K) :
  set_iter X = [] ↔ X = ∅.
Proof.
  split.
  - intros Hx. apply leibniz_equiv, elements_empty_inv, Permutation_nil_r.
    by rewrite <- set_iter_perm, Hx.
  - intros ->. apply set_iter_empty.
Qed.

Lemma stdout_closed_start_effects w text x :
  stdout (closed_start_effects w text x) = [].
Proof.
  unfold closed_start_effects. by destruct (fetch w x) as [[??]|[?|?]|].
Qed.

Lemma count_started_closed_start_effects w text x y :
  count (process_started x) (closed_start_effects w text y)
  = if decide (y = x)
    then match fetch w x with Ret _ => 1 | _ => 0 end
    else 0.
Proof.
  unfold closed_start_effects. destruct (decide (y = x)) as [->|Hne].
  - destruct (fetch w x) as [[name created]|[?|?]|]; cbn; try done.
    by rewrite bool_decide_eq_true_2.
  - destruct (fetch w y) as [[name created]|[?|?]|]; cbn; try done.
    by rewrite bool_decide_eq_false_2.
Qed.

(** X15: when standard output is closed, the process part of a cycle
    (the whole of [_poll_once] in [src/main.py]) stores and removes nothing.
    Every new pid whose details can be read is still logged as started,
    once, but it is not stored, so the next cycle logs it again. The cycle
    returns only if no tracked pid has ended: otherwise the exception of
    [print] leaves [_log_end] and the cycle. *)
Theorem X15_closed_stdout `{SetIter} (w : world) (text : string)
    (s : ProcessMonitor) :
  stdout_closed w text →
  let r := main._poll_once w s in
  state_of r = s
  ∧ stdout (trace_of r) = []
  ∧ outcome_of r
    = (if decide (dom (pid_info s) ⊆ current_pids w)
       then Ret tt else Raise (OtherError text))
  ∧ (∀ x name created,
       x ∈ current_pids w → x ∉ dom (pid_info s) →
       fetch w x = Ret (name, created) →
       count (process_started x) (trace_of r) = 1).
Proof.
  intros Hw. cbv zeta. rewrite (main_poll_once_closed w text) by done.
  cbn [state_of outcome_of trace_of fst snd].
  split; [done|]. split; [|split].
  - unfold stdout. rewrite !omap_app, omap_bind_list.
    assert (∀ {A} (l : list A), l ≫= (λ _, @nil msg) = []) as Hnil.
    { intros A l. induction l as [|a l IH]; [done|]. by rewrite bind_cons, IH. }
    erewrite (bind_ext_elem_of _ (λ _, [])), Hnil
      by (intros x _; apply stdout_closed_start_effects).
    unfold pids_diagnostic, closed_end_effects.
    destruct (pids w); by destruct (set_iter _).
  - destruct (set_iter (dom (pid_info s) ∖ current_pids w)) as [|x l] eqn:Hl.
    + apply set_iter_nil in Hl. rewrite decide_True; [done|set_solver].
    + rewrite decide_False; [done|]. intros Hsub.
      assert (x ∈ dom (pid_info s) ∖ current_pids w) as Hx.
      { apply elem_of_set_iter. rewrite Hl. by left. }
      set_solver.
  - intros x name created Hc Hd Hf. rewrite !count_app.
    rewrite count_pids_diagnostic by by intros [] ?.
    rewrite (count_bind_own _ (closed_start_effects w text) x) by
      (apply NoDup_set_iter
       || (intros y Hy; rewrite count_started_closed_start_effects;
           by rewrite decide_False)).
    rewrite count_started_closed_start_effects, (decide_True (P := x = x)) by done.
    rewrite Hf, decide_True by (apply elem_of_set_iter; set_solver).
    unfold closed_end_effects. by destruct (set_iter _).
Qed.

Lemma stdout_closed_world_broken_pipe :
  stdout_closed world_broken_pipe "[Errno 32] Broken pipe".
Proof. by split. Qed.

Lemma X15_closed_stdout_witness :
  let r := @main._poll_once elements_iter world_broken_pipe monitor_empty in
  state_of r = monitor_empty
  ∧ outcome_of r = Ret tt
  ∧ count (process_started 100) (trace_of r) = 1.
Proof.
  destruct (@X15_closed_stdout elements_iter world_broken_pipe
              "[Errno 32] Broken pipe" monitor_empty
              stdout_closed_world_broken_pipe) as (Hs & _ & Ho & Hc).
  split; [exact Hs|]. split.
  - rewrite Ho. apply decide_True. by_evaluation.
  - apply (Hc 100%Z "alpha" "2024-01-01 00:00:04"); [by_evaluation..|reflexivity].
Defined.

(** ** The first cycle after the constructor *)

Lemma bind_nil_elem_of {A B} (f : A → list B) l :
  (∀ x, x ∈ l → f x = []) → l ≫= f = [].
Proof.
  induction l as [|x l IH]; intros Hf; [done|].
  rewrite bind_cons, Hf, IH; [done| |by left].
  intros y Hy. apply Hf. by right.
Qed.

Section first_cycle.
Context `{SetIter}.
Context (w : world) (l : list Z).
Context (Hw : calm w) (Hl : pids w = Ret l).
Context (Hok : ∀ x, x ∈ l → name_refused w x = false).

Lemma seeded_pid_info_accepted :
  seeded_pid_info w ∅ = foldl (λ m' x, seed_update w x m') ∅ l.
Proof.
  unfold seeded_pid_info. rewrite Hl.
  destruct (existsb (name_refused w) l) eqn:Hr; [|done].
  apply existsb_name_refused in Hr as (y & Hy & Hr). by rewrite Hok in Hr.
Qed.

Lemma current_pids_listed x : x ∈ current_pids w ↔ x ∈ l.
Proof. unfold current_pids. rewrite Hl. apply elem_of_list_to_set. Qed.

Lemma lookup_seeded_pid_info x :
  seeded_pid_info w ∅ !! x
  = if decide (x ∈ l)
    then match Process_name w x with Ret name => Some name | _ => None end
    else None.
Proof. by rewrite seeded_pid_info_accepted, lookup_foldl_seed_update, lookup_empty. Qed.

(** A listed pid that seeding has left out cannot be read now either. *)
Lemma start_effects_unseeded x :
  x ∈ l → seeded_pid_info w ∅ !! x = None → start_effects w x = [].
Proof.
  intros Hx. rewrite lookup_seeded_pid_info, decide_True by done.
  pose proof (Hok x Hx) as Hr. pose proof (calm_name w Hw x) as Hn.
  unfold start_effects, fetch, name_refused in *.
  by destruct (Process_name w x) as [name|[?|?]|].
Qed.

Lemma process_trace_seeded : process_trace w (seeded_pid_info w ∅) = [].
Proof.
  unfold process_trace, pids_diagnostic. rewrite Hl. cbn [app].
  replace (dom (seeded_pid_info w ∅) ∖ current_pids w) with (∅ : gset Z).
  - rewrite set_iter_empty, app_nil_r. apply bind_nil_elem_of.
    intros x [Hc Hx]%elem_of_set_iter%elem_of_difference.
    apply start_effects_unseeded; [by apply current_pids_listed|].
    by apply not_elem_of_dom.
  - symmetry. apply set_eq. intros x. split; [|set_solver].
    intros [[name Hx]%elem_of_dom Hc]%elem_of_difference.
    rewrite lookup_seeded_pid_info in Hx.
    destruct (decide (x ∈ l)) as [Hin|]; [|done].
    by apply current_pids_listed in Hin.
Qed.

Lemma pid_info_after_seeded :
  pid_info_after w (seeded_pid_info w ∅) = seeded_pid_info w ∅.
Proof.
  apply map_eq. intros x. rewrite lookup_pid_info_after.
  destruct (decide (x ∈ current_pids w)) as [Hc|Hc].
  - destruct (seeded_pid_info w ∅ !! x) as [name|] eqn:Hx; [done|].
    apply current_pids_listed in Hc.
    pose proof (start_effects_unseeded x Hc Hx) as He.
    unfold start_effects in He. by destruct (fetch w x) as [[??]|[?|?]|].
  - rewrite lookup_seeded_pid_info, decide_False; [done|].
    by rewrite <- current_pids_listed.
Qed.

End first_cycle.

Section first_cycle_connections.
Context `{SetIter}.

Lemma conn_trace_seeded w :
  conn_trace w (seeded_conn_info w ∅) = conns_diagnostic w.
Proof.
  unfold conn_trace.
  replace (dom (seeded_conn_info w ∅) ∖ current_keys w) with (∅ : gset conn_key).
  - by rewrite set_iter_empty, app_nil_r.
  - symmetry. apply set_eq. intros k. split; [|set_solver].
    intros [[i Hk]%elem_of_dom Hc]%elem_of_difference.
    rewrite lookup_seeded_conn_info in Hk. by rewrite decide_False in Hk.
Qed.

Lemma conn_info_after_seeded w :
  conn_info_after w (seeded_conn_info w ∅) = seeded_conn_info w ∅.
Proof.
  apply map_eq. intros k. rewrite lookup_conn_info_after.
  destruct (decide (k ∈ current_keys w)) as [Hc|Hc].
  - pose proof (lookup_seeded_conn_info w k) as Hk.
    rewrite decide_True in Hk by done.
    rewrite Hk. by apply lookup_foldl_store_new_Some.
  - by rewrite lookup_seeded_conn_info, decide_False.
Qed.

End first_cycle_connections.

(** X16: existing processes and connections are not reported. In a calm
    world in which the constructor is configured, the pids can be listed and
    no name is refused, the first
    cycle after the constructor, against the same answers of the system,
    emits nothing (in [src/scr/main.py], nothing but the debug record of a
    failed connection listing) and leaves both dicts as seeded. *)
Theorem X16_first_cycle_is_silent `{SetIter} (w : world) (l : list Z) :
  calm w → configured w → pids w = Ret l →
  (∀ x, x ∈ l → name_refused w x = false) →
  let p := main._poll_once w (state_of (main.__init__ w)) in
  let r := scr._poll_once w (state_of (scr.__init__ w)) in
  trace_of p = []
  ∧ state_of p = state_of (main.__init__ w)
  ∧ trace_of r = conns_diagnostic w
  ∧ state_of r = state_of (scr.__init__ w).
Proof.
  intros Hw Hc Hl Hok. cbv zeta.
  rewrite main_init_calm, scr_init_calm by done. cbn [state_of fst snd].
  rewrite main_poll_once_calm, scr_poll_once_calm by done.
  cbn [trace_of state_of fst snd pid_info conn_info with_pid_info with_conn_info
         running monitor_network].
  unfold with_conn_info, with_pid_info.
  cbn [pid_info conn_info running monitor_network].
  rewrite (process_trace_seeded w l), (pid_info_after_seeded w l) by done.
  by rewrite conn_trace_seeded, conn_info_after_seeded.
Qed.

Lemma X16_first_cycle_is_silent_witness :
  trace_of (@scr._poll_once elements_iter world_alpha
              (state_of (scr.__init__ world_alpha))) = [].
Proof.
  exact (proj1 (proj2 (proj2
           (@X16_first_cycle_is_silent elements_iter world_alpha [100%Z]
              calm_world_alpha (conj eq_refl eq_refl) eq_refl
              (λ x _, eq_refl))))).
Defined.

(** X17: in a calm world in which the constructor is configured, when
    the name of one listed pid is refused while the
    constructor seeds [pid_info] (an exception other than [NoSuchProcess],
    such as a denied access), the dict is emptied, and the first cycle
    against the same answers of the system reports every listed process
    whose details can be read as started, exactly once, although it was
    running before the monitor. *)
Theorem X17_refused_name_reports_existing `{SetIter} (w : world) (l : list Z)
    (x y : Z) (name created : string) :
  calm w → configured w → pids w = Ret l →
  y ∈ l → name_refused w y = true →
  x ∈ l → fetch w x = Ret (name, created) →
  count (process_started x)
    (trace_of (main._poll_once w (state_of (main.__init__ w)))) = 1
  ∧ count (process_started x)
      (trace_of (scr._poll_once w (state_of (scr.__init__ w)))) = 1.
Proof.
  intros Hw Hc Hl Hy Hr Hx Hf.
  assert (seeded_pid_info w ∅ = ∅) as Hempty.
  { unfold seeded_pid_info. rewrite Hl.
    assert (existsb (name_refused w) l = true) as ->; [|done].
    apply existsb_name_refused. by exists y. }
  assert (count (process_started x) (process_trace w ∅) = 1) as Hcount.
  { rewrite count_started_process_trace, Hf. apply decide_True.
    apply elem_of_difference. split; [|set_solver].
    unfold current_pids. rewrite Hl. by apply elem_of_list_to_set. }
  rewrite main_init_calm, scr_init_calm by done. cbn [state_of fst snd].
  rewrite main_poll_once_calm, scr_poll_once_calm by done.
  cbn [trace_of snd pid_info]. rewrite Hempty. split; [done|].
  rewrite count_app, Hcount, count_process_conn_trace; [done|].
  apply process_started_about.
Qed.

Lemma X17_refused_name_reports_existing_witness :
  count (process_started 100)
    (trace_of (@main._poll_once elements_iter world_refused
                 (state_of (main.__init__ world_refused)))) = 1.
Proof.
  refine (proj1 (@X17_refused_name_reports_existing elements_iter world_refused
                   [100%Z; 200%Z] 100%Z 200%Z "alpha" "2024-01-01 00:00:07"
                   calm_world_refused (conj eq_refl eq_refl) eq_refl _ eq_refl _
                   eq_refl)).
  - apply list_elem_of_In. cbn. tauto.
  - apply list_elem_of_In. cbn. tauto.
Defined.

(** ** [stop] and the script *)

(** X18: [stop] clears [running] whatever [print] answers, acts only on a
    running monitor, and is idempotent: a second call emits nothing and
    changes nothing. *)
Theorem X18_stop_is_idempotent (w w' : world) (s : ProcessMonitor) :
  running (state_of (stop w s)) = false
  ∧ stop w (with_running false s) = (Ret tt, with_running false s, [])
  ∧ (stop w;; stop w') s = stop w s.
Proof.
  unfold stop, do_print.
  unfold mbind, M_mbind, M_bind, get_self, set_running, logging, mret, M_mret, M_ret.
  cbn [running with_running render state_of fst snd].
  destruct (running s) eqn:Hr; [|by rewrite Hr].
  by destruct (print w "Stopping ProcessMonitor...") as [[]|e|].
Qed.

Lemma main_exit_run init start w_exit :
  (∀ line, print w_exit line = Ret tt) →
  let r := __main__ init start w_exit in
  (∀ e, r.1.1 = Traceback e ↔ init.1.1 = Raise e)
  ∧ (∀ code, r.1.1 = SystemExit code →
       code = 1%Z
       ∧ ∃ e, (start init.1.2).1.1 = Raise e
              ∧ r.2
                = init.2 ++ (start init.1.2).2
                  ++ [Logged ERROR
                        (Text ("Unhandled error in monitor: " +:+ str_exn e));
                      Printed (Text ("Unhandled error: " +:+ str_exn e))]).
Proof.
  intros Hprint. unfold __main__.
  destruct init as [[[[]|e0|] monitor] t0]; cbn [fst snd] in *.
  - destruct (start monitor) as [[[[]|e|] self] t]; cbn [fst snd render];
      [by split| |by split].
    rewrite Hprint. cbn [fst snd]. split; [done|].
    intros code [= <-]. split; [done|]. by exists e.
  - split; [|done]. intros e. split; by intros [= ->].
  - by split.
Qed.

(** X19: the script of either file, which passes [interval=1.0]. When
    the [print] of its [except] clause succeeds, the script ends on an
    uncaught [Exception] exactly when [logging.basicConfig] raises it in the
    constructor, which stands outside the [try] (the log file cannot be
    opened). An [Exception] out of [start] is caught, and the script exits
    with a status only then: the status is 1, and the last two effects are
    the error record and the printed line that name the exception. *)
Theorem X19_script_exit `{SetIter} (w_init w_start : world) (ws : list world)
    (w_stop w_exit : world) :
  float_interval w_init = Ret tt →
  (∀ line, print w_exit line = Ret tt) →
  ∀ init start,
    (init = main.__init__ w_init ∧ start = main.start w_start ws w_stop)
    ∨ (init = scr.__init__ w_init ∧ start = scr.start w_start ws w_stop) →
    let r := __main__ init start w_exit in
    (∀ e, r.1.1 = Traceback e ↔ basicConfig w_init = Raise e)
    ∧ (∀ code, r.1.1 = SystemExit code →
         code = 1%Z
         ∧ ∃ e, outcome_of (start (state_of init)) = Raise e
                ∧ r.2
                  = trace_of init ++ trace_of (start (state_of init))
                    ++ [Logged ERROR
                          (Text ("Unhandled error in monitor: " +:+ str_exn e));
                        Printed (Text ("Unhandled error: " +:+ str_exn e))]).
Proof.
  intros Hfloat Hprint init start Hfile.
  destruct (main_exit_run init start w_exit Hprint) as [Htraceback Hexit].
  split; [|exact Hexit].
  intros e. rewrite Htraceback.
  assert (init.1.1 = Raise e
          ↔ float_interval w_init = Raise e
            ∨ (float_interval w_init = Ret tt ∧ basicConfig w_init = Raise e))
    as ->.
  { destruct Hfile as [[-> _]|[-> _]].
    - apply raises_only_from_configuration, never_raises_seed_pids.
    - apply raises_only_from_configuration, never_raises_seeding. }
  rewrite Hfloat. split; [by intros [?|[_ ?]]|]. intros Hb. by right.
Qed.

Lemma X19_script_exit_witness :
  (__main__ (main.__init__ world_beta)
     (@main.start elements_iter world_alpha [world_broken_pipe] world_alpha)
     world_alpha).1.1 = SystemExit 1
  ∧ (__main__ (scr.__init__ world_no_log_file)
       (@scr.start elements_iter world_alpha [world_beta] world_alpha)
       world_alpha).1.1
    = Traceback (OtherError "[Errno 13] Permission denied: 'process_log.txt'").
Proof.
  split.
  - pose proof (@X19_script_exit elements_iter world_beta world_alpha
                  [world_broken_pipe] world_alpha world_alpha eq_refl
                  (λ _, eq_refl) (main.__init__ world_beta)
                  (@main.start elements_iter world_alpha [world_broken_pipe]
                     world_alpha)
                  (or_introl (conj eq_refl eq_refl))) as [_ Hexit].
    destruct (__main__ (main.__init__ world_beta)
                (@main.start elements_iter world_alpha [world_broken_pipe]
                   world_alpha)
                world_alpha).1.1 as [|code|e|] eqn:Hr;
      [by vm_compute in Hr| |by vm_compute in Hr..].
    by destruct (Hexit code eq_refl) as [-> _].
  - apply (@X19_script_exit elements_iter world_no_log_file world_alpha
             [world_beta] world_alpha world_alpha eq_refl (λ _, eq_refl)
             (scr.__init__ world_no_log_file)
             (@scr.start elements_iter world_alpha [world_beta] world_alpha)
             (or_intror (conj eq_refl eq_refl))).
    reflexivity.
Defined.
